(** * The to-do list widget of script.js, over a model of the browser

    script.js is event-driven glue over three browser facilities: the DOM
    (an [<input>] read through [input.value], a list container whose
    child nodes are the list), [localStorage] and [alert].  The program
    has no data structure of its own: the list IS the container's child
    nodes, and the snapshot IS the container's [innerHTML].

    The development therefore has three layers.
    - JavaScript strings, the DOM tree, [classList], the HTML fragment
      serializer and the key-value store, modelled as the standards
      define them.
    - The HTML fragment parser, which script.js reaches through the
      [innerHTML] setter.  It is an interface ([HtmlParser]); every
      result that does not depend on what the parser answers is proved
      for all parsers.  [html_parse] is an executable model of the
      standard's parser on a stated subset of HTML, used where a claim
      depends on parsing.
    - The functions and handlers of script.js, in the order of the file. *)

From Stdlib Require Import NArith String Ascii List Bool Lia.
From stdpp Require Import base option list gmap.

Local Open Scope N_scope.
Set Warnings "-register-all".

(** ** JavaScript strings *)

(** A JavaScript string is a sequence of UTF-16 code units. *)
Abbreviation jsstring := (list N).

(** An ASCII literal as a JavaScript string. *)
Definition lit (s : string) : jsstring :=
  List.map N_of_ascii (list_ascii_of_string s).

(** [a === b] on two strings. *)
Definition strict_eq (a b : jsstring) : bool := bool_decide (a = b).

(** ECMAScript WhiteSpace and LineTerminator code points: what
    [String.prototype.trim] strips. *)
Definition is_white_space (c : N) : bool :=
  (c =? 0x9) || (c =? 0xA) || (c =? 0xB) || (c =? 0xC) || (c =? 0xD)
  || (c =? 0x20) || (c =? 0xA0) || (c =? 0x1680)
  || ((0x2000 <=? c) && (c <=? 0x200A))
  || (c =? 0x2028) || (c =? 0x2029) || (c =? 0x202F) || (c =? 0x205F)
  || (c =? 0x3000) || (c =? 0xFEFF).

Fixpoint trim_start (s : jsstring) : jsstring :=
  match s with
  | [] => []
  | c :: r => if is_white_space c then trim_start r else s
  end.

Definition trim_end (s : jsstring) : jsstring := rev (trim_start (rev s)).

(** [s.trim()] *)
Definition trim (s : jsstring) : jsstring := trim_end (trim_start s).

(** ASCII upper-casing, as [tagName] applies it to an HTML element's name,
    and lower-casing, as the tokenizer applies it to tag and attribute
    names. *)
Definition ascii_upper (c : N) : N :=
  if (0x61 <=? c) && (c <=? 0x7A) then c - 0x20 else c.

Definition ascii_lower (c : N) : N :=
  if (0x41 <=? c) && (c <=? 0x5A) then c + 0x20 else c.

Definition is_ascii_alpha (c : N) : bool :=
  ((0x41 <=? c) && (c <=? 0x5A)) || ((0x61 <=? c) && (c <=? 0x7A)).

(** ASCII whitespace of the HTML and DOM standards: TAB, LF, FF, CR, SPACE. *)
Definition is_ascii_whitespace (c : N) : bool :=
  (c =? 0x9) || (c =? 0xA) || (c =? 0xC) || (c =? 0xD) || (c =? 0x20).

(** ** The DOM *)

Abbreviation attributes := (list (jsstring * jsstring)).

(** A node of the tree under the list container.  An element carries its
    local name (lower case for what the parser and [createElement("li")]
    produce), its attributes in order, and its child nodes. *)
Inductive node : Type :=
| Text (data : jsstring)
| Comment (data : jsstring)
| Element (name : jsstring) (attrs : attributes) (kids : list node).

(** [e.tagName] of an HTML element: the name in ASCII upper case. *)
Definition tagName (name : jsstring) : jsstring := List.map ascii_upper name.

Fixpoint getAttribute (k : jsstring) (attrs : attributes) : option jsstring :=
  match attrs with
  | [] => None
  | (k', v) :: r => if strict_eq k' k then Some v else getAttribute k r
  end.

(** Setting an attribute changes the value in place when the element has
    the attribute and appends it otherwise. *)
Fixpoint setAttribute (k v : jsstring) (attrs : attributes) : attributes :=
  match attrs with
  | [] => [(k, v)]
  | (k', v') :: r =>
      if strict_eq k' k then (k', v) :: r else (k', v') :: setAttribute k v r
  end.

(** *** classList

    The token set of [classList] is the class attribute split on ASCII
    whitespace, each token appended to an ordered set. *)
Fixpoint split_on_whitespace (cur : jsstring) (s : jsstring) : list jsstring :=
  match s with
  | [] => match cur with [] => [] | _ => [cur] end
  | c :: r =>
      if is_ascii_whitespace c
      then match cur with
           | [] => split_on_whitespace [] r
           | _ => cur :: split_on_whitespace [] r
           end
      else split_on_whitespace (cur ++ [c]) r
  end.

Fixpoint ordered_set_append_all (set toks : list jsstring) : list jsstring :=
  match toks with
  | [] => set
  | t :: r =>
      ordered_set_append_all (if bool_decide (t ∈ set) then set else set ++ [t]) r
  end.

Definition ordered_set_parser (v : jsstring) : list jsstring :=
  ordered_set_append_all [] (split_on_whitespace [] v).

(** The ordered set serializer: the tokens separated by U+0020. *)
Fixpoint ordered_set_serializer (toks : list jsstring) : jsstring :=
  match toks with
  | [] => []
  | [t] => t
  | t :: r => t ++ 0x20 :: ordered_set_serializer r
  end.

Definition class_tokens (attrs : attributes) : list jsstring :=
  ordered_set_parser (default [] (getAttribute (lit "class") attrs)).

(** [e.classList.contains(tok)] *)
Definition classList_contains (tok : jsstring) (attrs : attributes) : bool :=
  bool_decide (tok ∈ class_tokens attrs).

(** [e.classList.toggle(tok)] with no force argument: remove the token when
    the set has it, append it otherwise, then write the set back to the
    class attribute.  (The update steps skip the write only when the
    attribute is absent and the set is empty, which cannot be after an
    append.) *)
Definition classList_toggle (tok : jsstring) (attrs : attributes) : attributes :=
  let toks := class_tokens attrs in
  let toks' :=
    if bool_decide (tok ∈ toks)
    then List.filter (fun t => negb (strict_eq t tok)) toks
    else toks ++ [tok] in
  setAttribute (lit "class") (ordered_set_serializer toks') attrs.

(** *** Paths

    An element under the container is addressed by the child indices that
    lead to it from the container; the empty path is the container. *)
Abbreviation path := (list nat).

Definition kids_of (n : node) : list node :=
  match n with Element _ _ ks => ks | _ => [] end.

Fixpoint node_at (ks : list node) (p : path) : option node :=
  match p with
  | [] => None
  | i :: q =>
      match ks !! i with
      | None => None
      | Some n => match q with [] => Some n | _ => node_at (kids_of n) q end
      end
  end.

(** Apply [f] to the node at path [p]. *)
Fixpoint alter_at (f : node -> node) (ks : list node) (p : path) : list node :=
  match p with
  | [] => ks
  | i :: q =>
      match q with
      | [] => alter f i ks
      | _ =>
          alter (fun n => match n with
                          | Element a b c => Element a b (alter_at f c q)
                          | _ => n
                          end) i ks
      end
  end.

(** [n.remove()] for the node at path [p]: it leaves its parent's child
    list, the siblings keep their order. *)
Fixpoint remove_at (ks : list node) (p : path) : list node :=
  match p with
  | [] => ks
  | i :: q =>
      match q with
      | [] => delete i ks
      | _ =>
          alter (fun n => match n with
                          | Element a b c => Element a b (remove_at c q)
                          | _ => n
                          end) i ks
      end
  end.

(** ** The HTML fragment serializer ([innerHTML] getter) *)

Definition escape_char (attribute_mode : bool) (c : N) : jsstring :=
  if c =? 0x26 then lit "&amp;"
  else if c =? 0xA0 then lit "&nbsp;"
  else if c =? 0x3C then lit "&lt;"
  else if c =? 0x3E then lit "&gt;"
  else if attribute_mode && (c =? 0x22) then lit "&quot;"
  else [c].

(** Escaping a string, as the standard has it today: [&], U+00A0, [<] and
    [>] become character references, and so does the double quote in an
    attribute value. *)
Definition escape (attribute_mode : bool) (s : jsstring) : jsstring :=
  List.concat (List.map (escape_char attribute_mode) s).

Definition void_elements : list jsstring :=
  List.map lit
    ["area"; "base"; "basefont"; "bgsound"; "br"; "col"; "embed"; "frame";
     "hr"; "img"; "input"; "keygen"; "link"; "meta"; "param"; "source";
     "track"; "wbr"]%string.

(** Elements whose text children are serialized without escaping. *)
Definition raw_text_parents : list jsstring :=
  List.map lit
    ["style"; "script"; "xmp"; "iframe"; "noembed"; "noframes"; "plaintext";
     "noscript"]%string.

Definition name_in (name : jsstring) (l : list jsstring) : bool :=
  List.existsb (strict_eq name) l.

Definition serialize_attr (a : jsstring * jsstring) : jsstring :=
  0x20 :: fst a ++ 0x3D :: 0x22 :: escape true (snd a) ++ [0x22].

Fixpoint serialize_node (raw_parent : bool) (n : node) : jsstring :=
  match n with
  | Text d => if raw_parent then d else escape false d
  | Comment d => lit "<!--" ++ d ++ lit "-->"
  | Element name attrs ks =>
      0x3C :: name ++ List.concat (List.map serialize_attr attrs) ++ 0x3E ::
      (if name_in name void_elements then []
       else List.concat
              (List.map (serialize_node (name_in name raw_text_parents)) ks)
            ++ 0x3C :: 0x2F :: name ++ [0x3E])
  end.

(** [e.innerHTML] read on an element named [name] with child nodes [ks]. *)
Definition innerHTML (name : jsstring) (ks : list node) : jsstring :=
  List.concat (List.map (serialize_node (name_in name raw_text_parents)) ks).

(** ** The HTML fragment parser ([innerHTML] setter), as an interface

    [parse_fragment ctx markup] is the standard's HTML fragment parsing
    algorithm run on [markup] with a context element named [ctx]; the
    setter replaces the element's child nodes by its result. *)
Class HtmlParser := parse_fragment : jsstring -> jsstring -> list node.

(** ** The page

    The markup of the page is not among the sources; script.js fixes what
    it needs from it: an element with id [item-input] that has a [value],
    and an element with id [list-container]. *)

(** Modelled from the spec: the page's markup (index.html) is missing.  The
    spec calls [list-container] the list region whose rows are the items,
    and script.js appends [li] elements to it, so the container is taken
    to be a [ul]: it is the context element of the [innerHTML] setter in
    [showList], and a click on the container itself has [tagName] [UL],
    neither [LI] nor [SPAN]. *)
Definition list_container_name : jsstring := lit "ul".

(** What the script can observe or change.  [effects] records the calls
    that leave the page, oldest first, and the exceptions that leave a
    handler uncaught: script.js catches none. *)
Inductive effect : Type :=
| Alert (message : jsstring)
| GetItem (key : jsstring)
| SetItem (key value : jsstring)
| Uncaught (error : jsstring).

(** The store may refuse a write: [localStorage.setItem(k, v)] throws a
    [QuotaExceededError] when the value does not fit the quota or the
    storage is unavailable, and the store is then left as it was.  Which
    writes fit is the browser's matter: [storage_accepts store k v] says
    whether writing [v] under [k] to [store] is accepted. *)
Class WebStorage :=
  storage_accepts : gmap jsstring jsstring -> jsstring -> jsstring -> bool.

Record state : Type := mkState {
  input_value : jsstring;                 (* input.value *)
  list_kids : list node;                  (* child nodes of listContainer *)
  list_in_document : bool;                (* listContainer is still in the page *)
  localStorage : gmap jsstring jsstring;
  effects : list effect
}.

Definition set_input_value (v : jsstring) (st : state) : state :=
  mkState v (list_kids st) (list_in_document st) (localStorage st) (effects st).

Definition set_list_kids (ks : list node) (st : state) : state :=
  mkState (input_value st) ks (list_in_document st) (localStorage st) (effects st).

Definition detach_list (st : state) : state :=
  mkState (input_value st) (list_kids st) false (localStorage st) (effects st).

(** [alert(msg)] *)
Definition alert (msg : jsstring) (st : state) : state :=
  mkState (input_value st) (list_kids st) (list_in_document st)
          (localStorage st) (effects st ++ [Alert msg]).

(** [localStorage.setItem(k, v)]: the call is logged; an accepted write
    replaces the value under [k], a refused one throws and changes
    nothing.  Every call of script.js is the last statement of its
    handler, so the exception ends nothing but the handler, uncaught. *)
Definition setItem `{WebStorage} (k v : jsstring) (st : state) : state :=
  if storage_accepts (localStorage st) k v
  then mkState (input_value st) (list_kids st) (list_in_document st)
               (<[k := v]> (localStorage st)) (effects st ++ [SetItem k v])
  else mkState (input_value st) (list_kids st) (list_in_document st)
               (localStorage st)
               (effects st ++ [SetItem k v; Uncaught (lit "QuotaExceededError")]).

(** [localStorage.getItem(k)]: the value, or [None] for JavaScript's null. *)
Definition getItem (k : jsstring) (st : state) : option jsstring * state :=
  (localStorage st !! k,
   mkState (input_value st) (list_kids st) (list_in_document st)
           (localStorage st) (effects st ++ [GetItem k])).

(** Truthiness of what [getItem] returns: null and the empty string are
    falsy, every other string is truthy. *)
Definition truthy (v : option jsstring) : bool :=
  match v with
  | None => false
  | Some [] => false
  | Some (_ :: _) => true
  end.

(** ** script.js *)

Section Script.
Context `{HtmlParser} `{WebStorage}.

(** [document.createElement(name)] *)
Definition createElement (name : jsstring) : node := Element name [] [].

(** [e.innerHTML = markup] *)
Definition set_innerHTML (markup : jsstring) (e : node) : node :=
  match e with
  | Element name attrs _ => Element name attrs (parse_fragment name markup)
  | _ => e
  end.

(** [e.className = v] *)
Definition set_className (v : jsstring) (e : node) : node :=
  match e with
  | Element name attrs ks => Element name (setAttribute (lit "class") v attrs) ks
  | _ => e
  end.

(** [e.appendChild(child)] for a child that has no parent yet *)
Definition appendChild (child : node) (e : node) : node :=
  match e with
  | Element name attrs ks => Element name attrs (ks ++ [child])
  | _ => e
  end.

(** [e.classList.toggle(tok)] *)
Definition toggle_class (tok : jsstring) (e : node) : node :=
  match e with
  | Element name attrs ks => Element name (classList_toggle tok attrs) ks
  | _ => e
  end.

(** The delete button of [addItem], steps 2:
    [span.innerHTML = "\u00d7"; span.className = 'close']. *)
Definition close_button : node :=
  set_className (lit "close") (set_innerHTML [0xD7] (createElement (lit "span"))).

(** The [li] of [addItem], steps 1 and 2, for the text [v] of the input. *)
Definition new_li (v : jsstring) : node :=
  appendChild close_button (set_innerHTML v (createElement (lit "li"))).

(** [function saveData()] *)
Definition saveData (st : state) : state :=
  setItem (lit "data") (innerHTML list_container_name (list_kids st)) st.

(** [function addItem()] *)
Definition addItem (st : state) : state :=
  if strict_eq (trim (input_value st)) []
  then alert (lit "You must write something!") st
  else
    let st := set_list_kids (list_kids st ++ [new_li (input_value st)]) st in
    let st := set_input_value [] st in
    saveData st.

(** [e.target.tagName] for the element at path [p]; [None] when the path
    leads to no element (text and comment nodes are not event targets). *)
Definition target_tagName (st : state) (p : path) : option jsstring :=
  match p with
  | [] => Some (tagName list_container_name)
  | _ =>
      match node_at (list_kids st) p with
      | Some (Element name _ _) => Some (tagName name)
      | _ => None
      end
  end.

(** [e.target.parentElement.remove()] for the target at path [p].  The
    parent of a child of the container is the container, which leaves the
    page with its child nodes as they are. *)
Definition remove_parent (p : path) (st : state) : state :=
  match removelast p with
  | [] => detach_list st
  | q => set_list_kids (remove_at (list_kids st) q) st
  end.

(** The click listener of [listContainer], for a click whose target is the
    element at path [p].  A path that leads to no element is no click, and
    the state stays. *)
Definition on_click (p : path) (st : state) : state :=
  match target_tagName st p with
  | None => st
  | Some tag =>
      if strict_eq tag (lit "LI")
      then saveData
             (set_list_kids (alter_at (toggle_class (lit "checked")) (list_kids st) p) st)
      else if strict_eq tag (lit "SPAN")
      then saveData (remove_parent p st)
      else st
  end.

(** [function showList()] *)
Definition showList (st : state) : state :=
  let (savedData, st) := getItem (lit "data") st in
  if truthy savedData
  then set_list_kids (parse_fragment list_container_name (default [] savedData)) st
  else st.

(** The keypress listener of [input]; [preventDefault] changes nothing
    the model holds. *)
Definition on_keypress (key : jsstring) (st : state) : state :=
  if strict_eq key (lit "Enter") then addItem st else st.

(** The page as the script finds it: an empty input, the container with
    the child nodes the page's markup gives it, and the store; then the
    top level of script.js runs, which calls [showList]. *)
Definition page_loaded (page_kids : list node) (store : gmap jsstring jsstring) : state :=
  mkState [] page_kids true store [].

Definition bootstrap (page_kids : list node) (store : gmap jsstring jsstring) : state :=
  showList (page_loaded page_kids store).

(** What happens after the script has run: the user edits the input, a key
    is pressed in it, or an element of the list region is clicked. *)
Inductive event : Type :=
| UserTypes (v : jsstring)
| KeyPress (key : jsstring)
| Click (target : path).

Definition handle (ev : event) (st : state) : state :=
  match ev with
  | UserTypes v => set_input_value v st
  | KeyPress key => on_keypress key st
  | Click p => on_click p st
  end.

Definition run (evs : list event) (st : state) : state :=
  fold_left (fun st ev => handle ev st) evs st.

End Script.

(** ** The list the spec speaks of

    The spec's List is a sequence of Items [{text, checked}].  In the
    program an item is an [li] child of the container: its checked flag is
    the [checked] class, its text is what the [li] shows before its delete
    button. *)

Record Item : Type := mkItem { text : jsstring; checked : bool }.

(** [n.textContent] *)
Fixpoint textContent (n : node) : jsstring :=
  match n with
  | Text d => d
  | Comment _ => []
  | Element _ _ ks => List.concat (List.map textContent ks)
  end.

(** A delete affordance: a [span] of class [close]. *)
Definition is_close_button (n : node) : bool :=
  match n with
  | Element name attrs _ =>
      strict_eq (tagName name) (lit "SPAN") && classList_contains (lit "close") attrs
  | _ => false
  end.

Definition item_of (n : node) : option Item :=
  match n with
  | Element name attrs ks =>
      if strict_eq (tagName name) (lit "LI")
      then Some (mkItem
                   (List.concat
                      (List.map textContent
                         (List.filter (fun k => negb (is_close_button k)) ks)))
                   (classList_contains (lit "checked") attrs))
      else None
  | _ => None
  end.

(** The List held by a container with child nodes [ks]. *)
Definition the_list (ks : list node) : list Item := omap item_of ks.

(** The number of storage writes in a log of effects. *)
Definition storage_writes (l : list effect) : nat :=
  List.length (List.filter (fun e => match e with SetItem _ _ => true | _ => false end) l).

Definition alerts (l : list effect) : nat :=
  List.length (List.filter (fun e => match e with Alert _ => true | _ => false end) l).

(** ** A model of the HTML parser

    The standard's parser is a tokenizer, a state machine that consumes
    one code unit at a time, feeding a tree builder that keeps a stack of
    open elements.  The model follows both, state by state and rule by
    rule, for this subset of HTML:
    - character data; the character references [&amp;] [&lt;] [&gt;]
      [&quot;] [&nbsp;] written with their semicolon, which are the ones
      the serializer writes;
    - comments, bogus comments and doctypes;
    - start and end tags with attributes, quoted or not, with duplicate
      attributes dropped and names lower-cased;
    - in the tree builder (insertion mode "in body", which is the mode of
      a fragment parsed in a [li], [span] or [ul]): the rules for [li]
      start and end tags, for void elements, for the start tags that the
      mode ignores, and the rules "any other start tag" and "any other
      end tag" for every other element.
    Outside the subset (other character references; elements with rules
    of their own: raw text and foreign content, tables, forms and selects,
    formatting elements, headings and the block elements that close a
    [p]) the model falls back on the rules above, and nothing below relies
    on what it answers there. *)
Module Html.

Record tag : Type := mkTag {
  tag_is_end : bool;
  tag_name : jsstring;
  tag_attrs : attributes;
  tag_self_closing : bool
}.

Inductive token : Type :=
| TChar (c : N)
| TComment (data : jsstring)
| TTag (t : tag).

Inductive quote : Type := DoubleQuoted | SingleQuoted | Unquoted.

Inductive tstate : Type :=
| Data
| CharRefInData (buf : jsstring)
| TagOpen
| EndTagOpen
| TagName (t : tag)
| BeforeAttrName (t : tag)
| AttrName (t : tag) (k : jsstring)
| AfterAttrName (t : tag) (k : jsstring)
| BeforeAttrValue (t : tag) (k : jsstring)
| AttrValue (q : quote) (t : tag) (k v : jsstring)
| CharRefInAttr (q : quote) (t : tag) (k v : jsstring) (buf : jsstring)
| AfterAttrValueQuoted (t : tag)
| SelfClosingStartTag (t : tag)
| MarkupDeclarationOpen (buf : jsstring)
| Doctype
| BogusComment (d : jsstring)
| CommentStart
| CommentStartDash
| InComment (d : jsstring)
| CommentEndDash (d : jsstring)
| CommentEnd (d : jsstring)
| CommentEndBang (d : jsstring).

(** The named character references of the model, each with its semicolon. *)
Definition named_references : list (jsstring * N) :=
  [(lit "amp;", 0x26); (lit "lt;", 0x3C); (lit "gt;", 0x3E);
   (lit "quot;", 0x22); (lit "nbsp;", 0xA0)].

Fixpoint is_prefix (a b : jsstring) : bool :=
  match a, b with
  | [], _ => true
  | x :: a', y :: b' => (x =? y) && is_prefix a' b'
  | _ :: _, [] => false
  end.

Definition reference_value (buf : jsstring) : option N :=
  snd <$> List.find (fun e => strict_eq (fst e) buf) named_references.

Definition reference_prefix (buf : jsstring) : bool :=
  List.existsb (fun e => is_prefix buf (fst e)) named_references.

(** Preprocessing of the input stream: CR LF and CR become LF. *)
Fixpoint normalize_newlines (s : jsstring) : jsstring :=
  match s with
  | [] => []
  | c :: r =>
      if c =? 0xD
      then 0xA :: match r with
                  | c' :: r' => if c' =? 0xA then normalize_newlines r'
                                else normalize_newlines r
                  | [] => []
                  end
      else c :: normalize_newlines r
  end.

(** Adding the attribute that the tokenizer has finished: dropped when the
    tag has one of that name. *)
Definition add_attr (t : tag) (k v : jsstring) : tag :=
  match getAttribute k (tag_attrs t) with
  | Some _ => t
  | None => mkTag (tag_is_end t) (tag_name t) (tag_attrs t ++ [(k, v)]) (tag_self_closing t)
  end.

Definition tag_name_push (t : tag) (c : N) : tag :=
  mkTag (tag_is_end t) (tag_name t ++ [c]) (tag_attrs t) (tag_self_closing t).

Definition set_self_closing (t : tag) : tag :=
  mkTag (tag_is_end t) (tag_name t) (tag_attrs t) true.

(** A code unit as it enters a tag or attribute name. *)
Definition name_char (c : N) : N := if c =? 0 then 0xFFFD else ascii_lower c.

(** A code unit as it enters an attribute value or a comment. *)
Definition value_char (c : N) : N := if c =? 0 then 0xFFFD else c.

(** HTML's whitespace once newlines are normalized: TAB, LF, FF, SPACE. *)
Definition is_space (c : N) : bool :=
  (c =? 0x9) || (c =? 0xA) || (c =? 0xC) || (c =? 0x20).

Definition data_step (c : N) : tstate * list token :=
  if c =? 0x26 then (CharRefInData [], [])
  else if c =? 0x3C then (TagOpen, [])
  else (Data, [TChar c]).

Definition char_ref_in_data_step (buf : jsstring) (c : N) : tstate * list token :=
  let buf' := buf ++ [c] in
  match reference_value buf' with
  | Some v => (Data, [TChar v])
  | None =>
      if reference_prefix buf' then (CharRefInData buf', [])
      else let (st, out) := data_step c in
           (st, List.map TChar (0x26 :: buf) ++ out)
  end.

Definition bogus_comment_step (d : jsstring) (c : N) : tstate * list token :=
  if c =? 0x3E then (Data, [TComment d]) else (BogusComment (d ++ [value_char c]), []).

Definition tag_open_step (c : N) : tstate * list token :=
  if c =? 0x21 then (MarkupDeclarationOpen [], [])
  else if c =? 0x2F then (EndTagOpen, [])
  else if is_ascii_alpha c then (TagName (mkTag false [ascii_lower c] [] false), [])
  else if c =? 0x3F then bogus_comment_step [] c
  else let (st, out) := data_step c in (st, TChar 0x3C :: out).

Definition end_tag_open_step (c : N) : tstate * list token :=
  if is_ascii_alpha c then (TagName (mkTag true [ascii_lower c] [] false), [])
  else if c =? 0x3E then (Data, [])
  else bogus_comment_step [] c.

Definition tag_name_step (t : tag) (c : N) : tstate * list token :=
  if is_space c then (BeforeAttrName t, [])
  else if c =? 0x2F then (SelfClosingStartTag t, [])
  else if c =? 0x3E then (Data, [TTag t])
  else (TagName (tag_name_push t (name_char c)), []).

Definition after_attr_name_step (t : tag) (k : jsstring) (c : N) : tstate * list token :=
  if is_space c then (AfterAttrName t k, [])
  else if c =? 0x2F then (SelfClosingStartTag (add_attr t k []), [])
  else if c =? 0x3D then (BeforeAttrValue t k, [])
  else if c =? 0x3E then (Data, [TTag (add_attr t k [])])
  else (AttrName (add_attr t k []) [name_char c], []).

Definition attr_name_step (t : tag) (k : jsstring) (c : N) : tstate * list token :=
  if is_space c || (c =? 0x2F) || (c =? 0x3E) then after_attr_name_step t k c
  else if c =? 0x3D then (BeforeAttrValue t k, [])
  else (AttrName t (k ++ [name_char c]), []).

Definition before_attr_name_step (t : tag) (c : N) : tstate * list token :=
  if is_space c then (BeforeAttrName t, [])
  else if c =? 0x2F then (SelfClosingStartTag t, [])
  else if c =? 0x3E then (Data, [TTag t])
  else if c =? 0x3D then (AttrName t [c], [])
  else (AttrName t [name_char c], []).

Definition attr_value_step (q : quote) (t : tag) (k v : jsstring) (c : N)
  : tstate * list token :=
  if c =? 0x26 then (CharRefInAttr q t k v [], [])
  else
    match q with
    | DoubleQuoted =>
        if c =? 0x22 then (AfterAttrValueQuoted (add_attr t k v), [])
        else (AttrValue q t k (v ++ [value_char c]), [])
    | SingleQuoted =>
        if c =? 0x27 then (AfterAttrValueQuoted (add_attr t k v), [])
        else (AttrValue q t k (v ++ [value_char c]), [])
    | Unquoted =>
        if is_space c then (BeforeAttrName (add_attr t k v), [])
        else if c =? 0x3E then (Data, [TTag (add_attr t k v)])
        else (AttrValue q t k (v ++ [value_char c]), [])
    end.

Definition char_ref_in_attr_step (q : quote) (t : tag) (k v buf : jsstring) (c : N)
  : tstate * list token :=
  let buf' := buf ++ [c] in
  match reference_value buf' with
  | Some x => (AttrValue q t k (v ++ [x]), [])
  | None =>
      if reference_prefix buf' then (CharRefInAttr q t k v buf', [])
      else attr_value_step q t k (v ++ 0x26 :: buf) c
  end.

Definition before_attr_value_step (t : tag) (k : jsstring) (c : N) : tstate * list token :=
  if is_space c then (BeforeAttrValue t k, [])
  else if c =? 0x22 then (AttrValue DoubleQuoted t k [], [])
  else if c =? 0x27 then (AttrValue SingleQuoted t k [], [])
  else if c =? 0x3E then (Data, [TTag (add_attr t k [])])
  else attr_value_step Unquoted t k [] c.

Definition after_attr_value_quoted_step (t : tag) (c : N) : tstate * list token :=
  if is_space c then (BeforeAttrName t, [])
  else if c =? 0x2F then (SelfClosingStartTag t, [])
  else if c =? 0x3E then (Data, [TTag t])
  else before_attr_name_step t c.

Definition self_closing_step (t : tag) (c : N) : tstate * list token :=
  if c =? 0x3E then (Data, [TTag (set_self_closing t)])
  else before_attr_name_step t c.

Definition comment_step (d : jsstring) (c : N) : tstate * list token :=
  if c =? 0x2D then (CommentEndDash d, []) else (InComment (d ++ [value_char c]), []).

Definition markup_declaration_open_step (buf : jsstring) (c : N) : tstate * list token :=
  let buf' := buf ++ [c] in
  if strict_eq buf' (lit "--") then (CommentStart, [])
  else if strict_eq (List.map ascii_lower buf') (lit "doctype") then (Doctype, [])
  else if is_prefix buf' (lit "--") || is_prefix (List.map ascii_lower buf') (lit "doctype")
  then (MarkupDeclarationOpen buf', [])
  else bogus_comment_step buf c.

Definition tstep (st : tstate) (c : N) : tstate * list token :=
  match st with
  | Data => data_step c
  | CharRefInData buf => char_ref_in_data_step buf c
  | TagOpen => tag_open_step c
  | EndTagOpen => end_tag_open_step c
  | TagName t => tag_name_step t c
  | BeforeAttrName t => before_attr_name_step t c
  | AttrName t k => attr_name_step t k c
  | AfterAttrName t k => after_attr_name_step t k c
  | BeforeAttrValue t k => before_attr_value_step t k c
  | AttrValue q t k v => attr_value_step q t k v c
  | CharRefInAttr q t k v buf => char_ref_in_attr_step q t k v buf c
  | AfterAttrValueQuoted t => after_attr_value_quoted_step t c
  | SelfClosingStartTag t => self_closing_step t c
  | MarkupDeclarationOpen buf => markup_declaration_open_step buf c
  | Doctype => if c =? 0x3E then (Data, []) else (Doctype, [])
  | BogusComment d => bogus_comment_step d c
  | CommentStart =>
      if c =? 0x2D then (CommentStartDash, [])
      else if c =? 0x3E then (Data, [TComment []])
      else comment_step [] c
  | CommentStartDash =>
      if c =? 0x2D then (CommentEnd [], [])
      else if c =? 0x3E then (Data, [TComment []])
      else comment_step [0x2D] c
  | InComment d => comment_step d c
  | CommentEndDash d =>
      if c =? 0x2D then (CommentEnd d, []) else comment_step (d ++ [0x2D]) c
  | CommentEnd d =>
      if c =? 0x3E then (Data, [TComment d])
      else if c =? 0x21 then (CommentEndBang d, [])
      else if c =? 0x2D then (CommentEnd (d ++ [0x2D]), [])
      else comment_step (d ++ [0x2D; 0x2D]) c
  | CommentEndBang d =>
      if c =? 0x2D then (CommentEndDash (d ++ [0x2D; 0x2D; 0x21]), [])
      else if c =? 0x3E then (Data, [TComment d])
      else comment_step (d ++ [0x2D; 0x2D; 0x21]) c
  end.

(** End of input: pending text is flushed, an open comment is emitted, an
    unfinished tag is dropped. *)
Definition at_eof (st : tstate) : list token :=
  match st with
  | CharRefInData buf => List.map TChar (0x26 :: buf)
  | TagOpen => [TChar 0x3C]
  | EndTagOpen => [TChar 0x3C; TChar 0x2F]
  | MarkupDeclarationOpen buf => [TComment buf]
  | BogusComment d | InComment d | CommentEndDash d | CommentEnd d
  | CommentEndBang d => [TComment d]
  | CommentStart | CommentStartDash => [TComment []]
  | _ => []
  end.

Fixpoint tokenize (st : tstate) (s : jsstring) : list token :=
  match s with
  | [] => at_eof st
  | c :: r => let (st', out) := tstep st c in out ++ tokenize st' r
  end.

(** *** Tree construction

    An open element with the child nodes it has so far, the last one
    first.  The stack of open elements has the current node at its head
    and the root of the fragment (an [html] element) at its bottom; an
    element joins its parent's child nodes when it is popped, which gives
    the same tree as joining on insertion since nodes are only ever added
    to the current node. *)
Record frame : Type := mkFrame {
  f_name : jsstring;
  f_attrs : attributes;
  f_kids : list node
}.

Definition close_frame (f : frame) : node :=
  Element (f_name f) (f_attrs f) (rev (f_kids f)).

Definition add_kid (n : node) (f : frame) : frame :=
  mkFrame (f_name f) (f_attrs f) (n :: f_kids f).

Definition names (l : list string) : list jsstring := List.map lit l.

Definition special_elements : list jsstring :=
  names ["address"; "applet"; "area"; "article"; "aside"; "base"; "basefont";
         "bgsound"; "blockquote"; "body"; "br"; "button"; "caption"; "center";
         "col"; "colgroup"; "dd"; "details"; "dir"; "div"; "dl"; "dt"; "embed";
         "fieldset"; "figcaption"; "figure"; "footer"; "form"; "frame";
         "frameset"; "h1"; "h2"; "h3"; "h4"; "h5"; "h6"; "head"; "header";
         "hgroup"; "hr"; "html"; "iframe"; "img"; "input"; "keygen"; "li";
         "link"; "listing"; "main"; "marquee"; "menu"; "meta"; "nav"; "noembed";
         "noframes"; "noscript"; "object"; "ol"; "p"; "param"; "plaintext";
         "pre"; "script"; "search"; "section"; "select"; "source"; "style";
         "summary"; "table"; "tbody"; "td"; "template"; "textarea"; "tfoot";
         "th"; "thead"; "title"; "tr"; "track"; "ul"; "wbr"; "xmp"]%string.

Definition implied_end_tag_elements : list jsstring :=
  names ["dd"; "dt"; "li"; "optgroup"; "option"; "p"; "rb"; "rp"; "rt"; "rtc"]%string.

Definition scope_markers : list jsstring :=
  names ["applet"; "caption"; "html"; "table"; "td"; "th"; "marquee"; "object";
         "template"]%string.

Definition list_item_scope : list jsstring := scope_markers ++ names ["ol"; "ul"]%string.

Definition button_scope : list jsstring := scope_markers ++ names ["button"]%string.

(** Start tags that "in body" ignores when parsing a fragment. *)
Definition ignored_start_tags : list jsstring :=
  names ["html"; "body"; "frameset"; "caption"; "col"; "colgroup"; "frame";
         "head"; "tbody"; "td"; "tfoot"; "th"; "thead"; "tr"]%string.

(** Start tags that insert an element and pop it at once. *)
Definition void_start_tags : list jsstring :=
  names ["area"; "br"; "embed"; "img"; "keygen"; "wbr"; "input"; "param";
         "source"; "track"; "hr"; "base"; "basefont"; "bgsound"; "link";
         "meta"]%string.

(** Generate implied end tags, except for [except]. *)
Fixpoint implied_end_tags (except : jsstring) (cur : frame) (below : list frame)
  : list frame :=
  match below with
  | [] => [cur]
  | g :: r =>
      if name_in (f_name cur) implied_end_tag_elements
         && negb (strict_eq (f_name cur) except)
      then implied_end_tags except (add_kid (close_frame cur) g) r
      else cur :: below
  end.

(** Pop elements until one named [name] has been popped.  The root stays. *)
Fixpoint pop_until (name : jsstring) (cur : frame) (below : list frame) : list frame :=
  match below with
  | [] => [cur]
  | g :: r =>
      let g' := add_kid (close_frame cur) g in
      if strict_eq (f_name cur) name then g' :: r else pop_until name g' r
  end.

Definition on_stack (f : frame -> list frame -> list frame) (stack : list frame)
  : list frame :=
  match stack with
  | [] => []
  | cur :: below => f cur below
  end.

(** Generate implied end tags except for [name], then pop up to a [name]. *)
Definition close_element (name : jsstring) (stack : list frame) : list frame :=
  on_stack (pop_until name) (on_stack (implied_end_tags name) stack).

(** The stack has an element named [name] in the scope with markers [markers]. *)
Fixpoint has_in_scope (name : jsstring) (markers : list jsstring) (stack : list frame)
  : bool :=
  match stack with
  | [] => false
  | f :: r =>
      if strict_eq (f_name f) name then true
      else if name_in (f_name f) markers then false
      else has_in_scope name markers r
  end.

(** The loop of the [li] start tag: is there an open [li] to close before
    a special element other than [address], [div] and [p]? *)
Fixpoint open_li_to_close (stack : list frame) : bool :=
  match stack with
  | [] => false
  | f :: r =>
      if strict_eq (f_name f) (lit "li") then true
      else if name_in (f_name f) special_elements
              && negb (name_in (f_name f) (names ["address"; "div"; "p"]%string))
      then false
      else open_li_to_close r
  end.

(** The loop of "any other end tag": is there an open element of that name
    before a special element? *)
Fixpoint open_element_to_close (name : jsstring) (stack : list frame) : bool :=
  match stack with
  | [] => false
  | f :: r =>
      if strict_eq (f_name f) name then true
      else if name_in (f_name f) special_elements then false
      else open_element_to_close name r
  end.

Definition close_p_in_button_scope (stack : list frame) : list frame :=
  if has_in_scope (lit "p") button_scope stack
  then close_element (lit "p") stack else stack.

Definition insert_node (n : node) (stack : list frame) : list frame :=
  on_stack (fun cur below => add_kid n cur :: below) stack.

(** Insert a character: it joins the text node that is the last child of
    the current node, if there is one. *)
Definition insert_char (c : N) (stack : list frame) : list frame :=
  on_stack (fun cur below =>
              match f_kids cur with
              | Text d :: ks => mkFrame (f_name cur) (f_attrs cur) (Text (d ++ [c]) :: ks)
              | ks => mkFrame (f_name cur) (f_attrs cur) (Text [c] :: ks)
              end :: below) stack.

Definition push (t : tag) (stack : list frame) : list frame :=
  mkFrame (tag_name t) (tag_attrs t) [] :: stack.

Definition start_tag (t : tag) (stack : list frame) : list frame :=
  let name := tag_name t in
  if name_in name ignored_start_tags then stack
  else if strict_eq name (lit "li") then
    let stack := if open_li_to_close stack
                 then close_element (lit "li") stack else stack in
    push t (close_p_in_button_scope stack)
  else if name_in name void_start_tags then
    let stack := if strict_eq name (lit "hr")
                 then close_p_in_button_scope stack else stack in
    insert_node (Element name (tag_attrs t) []) stack
  else push t stack.

Definition end_tag (name : jsstring) (stack : list frame) : list frame :=
  if name_in name (names ["html"; "body"]%string) then stack
  else if strict_eq name (lit "li") then
    if has_in_scope (lit "li") list_item_scope stack
    then close_element (lit "li") stack else stack
  else if strict_eq name (lit "p") then
    if has_in_scope (lit "p") button_scope stack
    then close_element (lit "p") stack
    else insert_node (Element (lit "p") [] []) stack
  else if strict_eq name (lit "br") then insert_node (Element (lit "br") [] []) stack
  else if open_element_to_close name stack then close_element name stack
  else stack.

(** One token in the insertion mode "in body".  U+0000 is ignored. *)
Definition tree_step (stack : list frame) (tok : token) : list frame :=
  match tok with
  | TChar c => if c =? 0 then stack else insert_char c stack
  | TComment d => insert_node (Comment d) stack
  | TTag t => if tag_is_end t then end_tag (tag_name t) stack else start_tag t stack
  end.

(** End of input: every open element is popped; the fragment is the child
    nodes of the root. *)
Fixpoint finish (cur : frame) (below : list frame) : list node :=
  match below with
  | [] => rev (f_kids cur)
  | g :: r => finish (add_kid (close_frame cur) g) r
  end.

Definition root : frame := mkFrame (lit "html") [] [].

Definition build (toks : list token) (stack : list frame) : list frame :=
  fold_left tree_step toks stack.

Definition finish_stack (stack : list frame) : list node :=
  match stack with
  | [] => []
  | cur :: below => finish cur below
  end.

(** The fragment parser of the model. *)
Definition html_parse (markup : jsstring) : list node :=
  finish_stack (build (tokenize Data (normalize_newlines markup)) [root]).

End Html.

(** The model as a parser.  The context element does not enter: for the
    contexts of script.js ([li], [span] and the list container) the
    standard starts the fragment parser in the same mode, "in body", with
    the same stack, the root alone. *)
Definition model_parser : HtmlParser := fun _ markup => Html.html_parse markup.


(** ** Vocabulary of the statements *)

(** A successful mutation: an add whose text is not blank, or a click on
    an element whose [tagName] is [LI] (toggle) or [SPAN] (delete). *)
Definition mutates (ev : event) (st : state) : bool :=
  match ev with
  | UserTypes _ => false
  | KeyPress key =>
      strict_eq key (lit "Enter") && negb (strict_eq (trim (input_value st)) [])
  | Click p =>
      match target_tagName st p with
      | Some tag => strict_eq tag (lit "LI") || strict_eq tag (lit "SPAN")
      | None => false
      end
  end.

(** The number of successful mutations along a run. *)
Fixpoint mutations `{HtmlParser} `{WebStorage} (evs : list event) (st : state) : nat :=
  match evs with
  | [] => 0
  | ev :: r => ((if mutates ev st then 1 else 0) + mutations r (handle ev st))%nat
  end.

(** Text that the HTML parser takes as it is: no [&], no [<], no U+0000
    and no CR. *)
Definition markup_free (s : jsstring) : bool :=
  forallb (fun c => negb ((c =? 0x26) || (c =? 0x3C) || (c =? 0) || (c =? 0xD))) s.

(** Text as the parser leaves it in a text node: no U+0000 and no CR. *)
Definition clean_text (s : jsstring) : bool :=
  forallb (fun c => negb ((c =? 0) || (c =? 0xD))) s.

(** Every text the user types in a run is markup-free. *)
Definition types_markup_free (evs : list event) : bool :=
  forallb (fun ev => match ev with UserTypes v => markup_free v | _ => true end) evs.

(** The delete button as the model parser builds it. *)
Definition plain_close_button : node :=
  Element (lit "span") [(lit "class", lit "close")] [Text [0xD7]].

(** The class attribute of an [li] made by [addItem] and toggled any
    number of times: absent, [checked], or empty. *)
Definition plain_attrs (a : attributes) : bool :=
  bool_decide (a = []) || bool_decide (a = [(lit "class", lit "checked")])
  || bool_decide (a = [(lit "class", [])]).

Definition is_plain_close_button (n : node) : bool :=
  match n with
  | Element name attrs [Text d] =>
      strict_eq name (lit "span")
      && bool_decide (attrs = [(lit "class", lit "close")])
      && strict_eq d [0xD7]
  | _ => false
  end.

(** An item as [addItem] makes it from markup-free text: an [li] holding
    one text node, not blank, and the delete button. *)
Definition is_plain_item (n : node) : bool :=
  match n with
  | Element name attrs [Text t; b] =>
      strict_eq name (lit "li") && plain_attrs attrs
      && negb (strict_eq (trim t) []) && clean_text t
      && is_plain_close_button b
  | _ => false
  end.

(** A state whose list holds plain items only and whose input holds
    markup-free text. *)
Definition plain_state (st : state) : bool :=
  forallb is_plain_item (list_kids st) && markup_free (input_value st).

(** A class token: not empty and free of ASCII whitespace. *)
Definition valid_token (t : jsstring) : Prop :=
  t ≠ [] ∧ forallb (fun c => negb (is_ascii_whitespace c)) t = true.

(** ** States of the worked examples *)

(** The script started on a page whose list region is empty, with an
    empty store, under the model parser. *)
Definition fresh_page : state := @bootstrap model_parser [] ∅.

(** The user types [v] and presses Enter. *)
Definition adds (v : string) : list event :=
  [UserTypes (lit v); KeyPress (lit "Enter")].

(** The scenario of the spec: add "Buy milk", add "Walk dog", toggle the
    first item. *)
Definition shopping : list event :=
  adds "Buy milk" ++ adds "Walk dog" ++ [Click [0%nat]].

(** ** Vocabulary of the further properties *)

(** The number of storage reads in a log of effects. *)
Definition storage_reads (l : list effect) : nat :=
  List.length (List.filter (fun e => match e with GetItem _ => true | _ => false end) l).

(** An event that is no click and no press of Enter: the user edits the
    input or presses another key in it. *)
Definition quiet_event (ev : event) : bool :=
  match ev with
  | UserTypes _ => true
  | KeyPress key => negb (strict_eq key (lit "Enter"))
  | Click _ => false
  end.

(** The text the input holds after the edits of [evs], starting from [v]. *)
Definition last_typed (evs : list event) (v : jsstring) : jsstring :=
  fold_left (fun v ev => match ev with UserTypes v' => v' | _ => v end) evs v.

(** A rejected submission: Enter is pressed while the input is blank. *)
Definition rejected (ev : event) (st : state) : bool :=
  match ev with
  | KeyPress key =>
      strict_eq key (lit "Enter") && strict_eq (trim (input_value st)) []
  | _ => false
  end.

(** The number of rejected submissions along a run. *)
Fixpoint rejections `{HtmlParser} `{WebStorage} (evs : list event) (st : state) : nat :=
  match evs with
  | [] => 0
  | ev :: r => ((if rejected ev st then 1 else 0) + rejections r (handle ev st))%nat
  end.

(** The user types [v] and presses Enter; and so for each text of [vs]. *)
Definition submit (v : jsstring) : list event :=
  [UserTypes v; KeyPress (lit "Enter")].

Definition submit_all (vs : list jsstring) : list event :=
  List.concat (List.map submit vs).

(** The text of the item that [addItem] makes of the input [v]: what the
    parser makes of [v], delete affordances apart. *)
Definition entry_text `{HtmlParser} (v : jsstring) : jsstring :=
  List.concat
    (List.map textContent
       (List.filter (fun k => negb (is_close_button k))
          (parse_fragment (lit "li") v))).

(** ** Stores that accept and stores that refuse *)

(** A store without a limit: every write is accepted. *)
Definition unlimited_storage : WebStorage := fun _ _ _ => true.

(** The size of a store: the code units of its keys and values. *)
Definition store_size (m : gmap jsstring jsstring) : nat :=
  map_fold (fun k v n => (length k + length v + n)%nat) 0%nat m.

(** A store with a quota: a write is accepted when the store it leaves is
    no larger than [limit] code units. *)
Definition quota_storage (limit : nat) : WebStorage :=
  fun store k v => bool_decide (store_size (<[k := v]> store) ≤ limit)%nat.

(** The write that [saveData] attempts in the state [st], and whether the
    store accepts it. *)
Definition save_accepted `{WebStorage} (st : state) : bool :=
  storage_accepts (localStorage st) (lit "data")
    (innerHTML list_container_name (list_kids st)).

(** Along a run: has there been a successful mutation, and was the write
    of the last one accepted?  [b] is the answer before the run.  The
    write of a mutation goes to the store as the event found it, with the
    markup of the container as the mutation left it. *)
Fixpoint last_write_accepted `{HtmlParser} `{WebStorage}
    (evs : list event) (st : state) (b : bool) : bool :=
  match evs with
  | [] => b
  | ev :: r =>
      last_write_accepted r (handle ev st)
        (if mutates ev st
         then storage_accepts (localStorage st) (lit "data")
                (innerHTML list_container_name (list_kids (handle ev st)))
         else b)
  end.

(** The handlers in the browser of the worked examples: the model parser
    and a store without a limit. *)
Abbreviation demo_run := (@run model_parser unlimited_storage).
Abbreviation demo_addItem := (@addItem model_parser unlimited_storage).
Abbreviation demo_keypress := (@on_keypress model_parser unlimited_storage).
Abbreviation demo_click := (@on_click unlimited_storage).
Abbreviation demo_save := (@saveData unlimited_storage).

(** The same with a store of 64 code units: it holds the markup of one
    short item, not of two. *)
Abbreviation tight_run := (@run model_parser (quota_storage 64)).
Abbreviation tight_save := (@saveData (quota_storage 64)).

(** * Properties *)

(** ** Strings *)

Lemma strict_eq_true (a b : jsstring) : strict_eq a b = true ↔ a = b.
Proof. unfold strict_eq. apply bool_decide_eq_true. Qed.

Lemma strict_eq_false (a b : jsstring) : strict_eq a b = false ↔ a ≠ b.
Proof. unfold strict_eq. apply bool_decide_eq_false. Qed.

Lemma strict_eq_refl (a : jsstring) : strict_eq a a = true.
Proof. by apply strict_eq_true. Qed.

Lemma trim_start_nil (s : jsstring) :
  trim_start s = [] ↔ forallb is_white_space s = true.
Proof.
  induction s as [|c s IH]; simpl; [done|].
  destruct (is_white_space c); simpl; [done|]. split; discriminate.
Qed.

Lemma trim_start_head (s r : jsstring) (c : N) :
  trim_start s = c :: r → is_white_space c = false.
Proof.
  induction s as [|x s IH]; simpl; [discriminate|].
  destruct (is_white_space x) eqn:E; [done|]. intros [= -> _]. done.
Qed.

(** [trim] answers the empty string exactly on the strings made of
    whitespace only. *)
Lemma trim_nil (s : jsstring) : trim s = [] ↔ forallb is_white_space s = true.
Proof.
  rewrite <- trim_start_nil. unfold trim, trim_end. split.
  - intros E. destruct (trim_start s) as [|c r] eqn:Es; [done|]. exfalso.
    apply trim_start_head in Es.
    assert (trim_start (rev (c :: r)) = []) as E'.
    { destruct (trim_start (rev (c :: r))); [done|].
      simpl in E. by destruct (rev _). }
    apply trim_start_nil in E'. simpl in E'.
    rewrite forallb_app in E'. simpl in E'. rewrite Es in E'.
    by rewrite andb_false_r in E'.
  - by intros ->.
Qed.

(** ** classList *)

Lemma getAttribute_setAttribute (k v : jsstring) (attrs : attributes) :
  getAttribute k (setAttribute k v attrs) = Some v.
Proof.
  induction attrs as [|[k' v'] r IH]; simpl.
  - by rewrite strict_eq_refl.
  - destruct (strict_eq k' k) eqn:E; simpl; by rewrite E.
Qed.

Lemma split_on_whitespace_token (t cur s : jsstring) :
  forallb (fun c => negb (is_ascii_whitespace c)) t = true →
  split_on_whitespace cur (t ++ s) = split_on_whitespace (cur ++ t) s.
Proof.
  revert cur. induction t as [|c t IH]; intros cur Ht; simpl.
  - by rewrite app_nil_r.
  - simpl in Ht. apply andb_prop in Ht as [Hc Ht].
    apply negb_true_iff in Hc. rewrite Hc, IH by done.
    by rewrite <- app_assoc.
Qed.

Lemma split_on_whitespace_valid (s cur : jsstring) :
  forallb (fun c => negb (is_ascii_whitespace c)) cur = true →
  Forall valid_token (split_on_whitespace cur s).
Proof.
  revert cur. induction s as [|c s IH]; intros cur Hcur; simpl.
  - destruct cur; [constructor|]. by repeat constructor.
  - destruct (is_ascii_whitespace c) eqn:Hc.
    + destruct cur; [by apply IH|]. constructor; [done|by apply IH].
    + apply IH. rewrite forallb_app, Hcur. simpl. by rewrite Hc.
Qed.

Lemma split_on_whitespace_space (cur s : jsstring) :
  split_on_whitespace cur (0x20 :: s)
  = match cur with
    | [] => split_on_whitespace [] s
    | _ => cur :: split_on_whitespace [] s
    end.
Proof. reflexivity. Qed.

Lemma split_serializer (toks : list jsstring) :
  Forall valid_token toks →
  split_on_whitespace [] (ordered_set_serializer toks) = toks.
Proof.
  induction 1 as [|t r [Hne Hws] Hr IH]; [done|].
  destruct r as [|t2 r].
  - simpl. rewrite <- (app_nil_r t) at 1.
    rewrite split_on_whitespace_token by done. simpl. by destruct t.
  - change (ordered_set_serializer (t :: t2 :: r))
      with (t ++ 0x20 :: ordered_set_serializer (t2 :: r)).
    rewrite split_on_whitespace_token, split_on_whitespace_space by done.
    rewrite IH. by destruct t.
Qed.

Lemma ordered_set_append_all_fresh (set toks : list jsstring) :
  NoDup (set ++ toks) → ordered_set_append_all set toks = set ++ toks.
Proof.
  revert set. induction toks as [|t r IH]; intros set Hnd; simpl.
  - by rewrite app_nil_r.
  - assert (t ∉ set) as Ht.
    { apply NoDup_app in Hnd as (_ & Hd & _). intros Hin.
      apply (Hd _ Hin). left. }
    rewrite bool_decide_false by done.
    rewrite IH; rewrite <- app_assoc; done.
Qed.

Lemma ordered_set_append_all_spec (P : jsstring → Prop) (toks set : list jsstring) :
  NoDup set → Forall P set → Forall P toks →
  NoDup (ordered_set_append_all set toks)
  ∧ Forall P (ordered_set_append_all set toks).
Proof.
  revert set. induction toks as [|t r IH]; intros set Hnd Hs Ht; simpl; [done|].
  inversion Ht; subst. apply IH; [| |done].
  - case_bool_decide; [done|]. apply NoDup_app. split_and!; [done| |apply NoDup_singleton].
    intros x Hx ->%list_elem_of_singleton. done.
  - case_bool_decide; [done|]. apply Forall_app. by split; [|constructor].
Qed.

Lemma class_tokens_wf (attrs : attributes) :
  NoDup (class_tokens attrs) ∧ Forall valid_token (class_tokens attrs).
Proof.
  unfold class_tokens, ordered_set_parser.
  apply ordered_set_append_all_spec; [constructor|constructor|].
  by apply split_on_whitespace_valid.
Qed.

Lemma ordered_set_round_trip (toks : list jsstring) :
  NoDup toks → Forall valid_token toks →
  ordered_set_parser (ordered_set_serializer toks) = toks.
Proof.
  intros Hnd Hv. unfold ordered_set_parser.
  rewrite split_serializer by done. by apply ordered_set_append_all_fresh.
Qed.

Lemma class_tokens_setAttribute (v : jsstring) (attrs : attributes) :
  class_tokens (setAttribute (lit "class") v attrs) = ordered_set_parser v.
Proof. unfold class_tokens. by rewrite getAttribute_setAttribute. Qed.

(** Toggling a token flips its membership. *)
Lemma classList_toggle_flips (tok : jsstring) (attrs : attributes) :
  valid_token tok →
  classList_contains tok (classList_toggle tok attrs)
  = negb (classList_contains tok attrs).
Proof.
  intros Htok. unfold classList_contains, classList_toggle.
  destruct (class_tokens_wf attrs) as [Hnd Hv].
  rewrite class_tokens_setAttribute.
  destruct (bool_decide (tok ∈ class_tokens attrs)) eqn:Hin; cbn [negb].
  - rewrite ordered_set_round_trip.
    + apply bool_decide_false. rewrite list_elem_of_In, filter_In.
      intros [_ Hne]. by rewrite strict_eq_refl in Hne.
    + apply NoDup_ListNoDup, List.NoDup_filter, NoDup_ListNoDup, Hnd.
    + rewrite Forall_forall in Hv |- *. intros x Hx. apply Hv.
      rewrite list_elem_of_In in Hx |- *. apply filter_In in Hx. tauto.
  - rewrite ordered_set_round_trip.
    + apply bool_decide_true. set_solver.
    + apply bool_decide_eq_false in Hin.
      apply NoDup_app. split_and!; [done| |apply NoDup_singleton].
      intros x Hx ->%list_elem_of_singleton. done.
    + apply Forall_app. split; [done|]. by constructor.
Qed.

Lemma valid_token_checked : valid_token (lit "checked").
Proof. by split. Qed.

(** ** Lists of nodes *)

Lemma alter_middle {A} (f : A → A) (l : list A) (i : nat) (x : A) :
  l !! i = Some x → alter f i l = take i l ++ f x :: drop (S i) l.
Proof.
  revert i. induction l as [|y l IH]; intros [|i] Hi; simplify_eq/=; [done|].
  f_equal. by apply IH.
Qed.

Lemma delete_middle {A} (l : list A) (i : nat) :
  delete i l = take i l ++ drop (S i) l.
Proof.
  revert i. induction l as [|y l IH]; intros [|i]; simpl; [done..|].
  f_equal. apply IH.
Qed.

Lemma drop_middle_length {A} (l1 l2 : list A) (x : A) (i : nat) :
  length l1 = i → drop (S i) (l1 ++ x :: l2) = l2.
Proof.
  intros <-. rewrite cons_middle, app_assoc.
  apply drop_app_length'. rewrite length_app. simpl. lia.
Qed.

Lemma the_list_middle (ks : list node) (i : nat) (n : node) (it : Item) :
  ks !! i = Some n → item_of n = Some it →
  the_list ks = the_list (take i ks) ++ it :: the_list (drop (S i) ks).
Proof.
  intros Hi Hit. rewrite <- (take_drop_middle ks i n Hi) at 1.
  unfold the_list. rewrite omap_app. simpl. by rewrite Hit.
Qed.

Lemma the_list_snoc (ks : list node) (n : node) (it : Item) :
  item_of n = Some it → the_list (ks ++ [n]) = the_list ks ++ [it].
Proof. intros Hit. unfold the_list. rewrite omap_app. simpl. by rewrite Hit. Qed.

Lemma tagName_li : tagName (lit "li") = lit "LI".
Proof. reflexivity. Qed.

(** ** script.js, for every HTML parser *)

(** Counting in a log of effects that ends with known entries. *)
Ltac count_effects :=
  unfold alerts, storage_reads, storage_writes;
  rewrite ?List.filter_app, ?length_app;
  repeat match goal with
         | |- context [if ?c then _ else _] => destruct c
         end;
  simpl; lia.

Section AnyParser.
Context `{HtmlParser} `{WebStorage}.

Lemma close_button_is_close_button : is_close_button close_button = true.
Proof. reflexivity. Qed.

Lemma new_li_shape (v : jsstring) :
  new_li v = Element (lit "li") [] (parse_fragment (lit "li") v ++ [close_button]).
Proof. reflexivity. Qed.

Lemma item_of_new_li (v : jsstring) :
  item_of (new_li v)
  = Some (mkItem
            (List.concat
               (List.map textContent
                  (List.filter (fun k => negb (is_close_button k))
                     (parse_fragment (lit "li") v))))
            false).
Proof.
  rewrite new_li_shape. unfold item_of. rewrite tagName_li, strict_eq_refl.
  rewrite List.filter_app.
  assert (List.filter (fun k => negb (is_close_button k)) [close_button] = [])
    as -> by reflexivity.
  by rewrite app_nil_r.
Qed.

Lemma saveData_kids st : list_kids (saveData st) = list_kids st.
Proof. unfold saveData, setItem. by destruct (storage_accepts _ _ _). Qed.

Lemma saveData_input st : input_value (saveData st) = input_value st.
Proof. unfold saveData, setItem. by destruct (storage_accepts _ _ _). Qed.

Lemma saveData_in_document st :
  list_in_document (saveData st) = list_in_document st.
Proof. unfold saveData, setItem. by destruct (storage_accepts _ _ _). Qed.

(** [saveData] calls [setItem] with the container's markup; a refused
    write throws. *)
Lemma saveData_effects st :
  effects (saveData st)
  = effects st
    ++ SetItem (lit "data") (innerHTML list_container_name (list_kids st))
       :: (if save_accepted st then [] else [Uncaught (lit "QuotaExceededError")]).
Proof. unfold saveData, setItem, save_accepted. by destruct (storage_accepts _ _ _). Qed.

(** An accepted write replaces the snapshot, a refused one leaves the
    store as it was. *)
Lemma saveData_store st :
  localStorage (saveData st)
  = if save_accepted st
    then <[lit "data" := innerHTML list_container_name (list_kids st)]>
           (localStorage st)
    else localStorage st.
Proof. unfold saveData, setItem, save_accepted. by destruct (storage_accepts _ _ _). Qed.

Lemma saveData_store_accepted st :
  save_accepted st = true →
  localStorage (saveData st) !! lit "data"
  = Some (innerHTML list_container_name (list_kids st)).
Proof. intros Ha. rewrite saveData_store, Ha. apply lookup_insert_eq. Qed.

Lemma saveData_other_keys st k :
  k ≠ lit "data" → localStorage (saveData st) !! k = localStorage st !! k.
Proof.
  intros Hk. rewrite saveData_store. destruct (save_accepted st); [|done].
  by apply lookup_insert_ne.
Qed.

Lemma storage_writes_app (l1 l2 : list effect) :
  storage_writes (l1 ++ l2) = (storage_writes l1 + storage_writes l2)%nat.
Proof. unfold storage_writes. by rewrite List.filter_app, length_app. Qed.

Lemma saveData_writes st :
  storage_writes (effects (saveData st)) = S (storage_writes (effects st)).
Proof. rewrite saveData_effects. count_effects. Qed.

Lemma saveData_alerts st : alerts (effects (saveData st)) = alerts (effects st).
Proof. rewrite saveData_effects. count_effects. Qed.

Lemma saveData_reads st :
  storage_reads (effects (saveData st)) = storage_reads (effects st).
Proof. rewrite saveData_effects. count_effects. Qed.

Lemma addItem_blank st :
  trim (input_value st) = [] →
  addItem st = alert (lit "You must write something!") st.
Proof. intros E. unfold addItem. by rewrite E. Qed.

Lemma addItem_not_blank st :
  trim (input_value st) ≠ [] →
  addItem st
  = saveData (set_input_value []
                (set_list_kids (list_kids st ++ [new_li (input_value st)]) st)).
Proof.
  intros E. unfold addItem. apply strict_eq_false in E. by rewrite E.
Qed.

(** A click on a child of the container that is an [li] toggles its
    [checked] class and saves. *)
Lemma on_click_li st i name attrs ks :
  list_kids st !! i = Some (Element name attrs ks) →
  tagName name = lit "LI" →
  on_click [i] st
  = saveData
      (set_list_kids
         (take i (list_kids st)
          ++ Element name (classList_toggle (lit "checked") attrs) ks
          :: drop (S i) (list_kids st)) st).
Proof.
  intros Hi Hn. unfold on_click, target_tagName. simpl node_at.
  rewrite Hi, Hn. simpl. by rewrite (alter_middle _ _ _ _ Hi).
Qed.

(** A click on a [span] child of an [li] child of the container removes
    the [li] and saves. *)
Lemma on_click_span st i j name attrs ks sname sattrs sks :
  list_kids st !! i = Some (Element name attrs ks) →
  ks !! j = Some (Element sname sattrs sks) →
  tagName sname = lit "SPAN" →
  on_click [i; j] st = saveData (set_list_kids (delete i (list_kids st)) st).
Proof.
  intros Hi Hj Hn. unfold on_click, target_tagName. simpl node_at.
  rewrite Hi. simpl. rewrite Hj, Hn. reflexivity.
Qed.

Lemma item_of_li name attrs ks :
  tagName name = lit "LI" →
  item_of (Element name attrs ks)
  = Some (mkItem
            (List.concat (List.map textContent
               (List.filter (fun k => negb (is_close_button k)) ks)))
            (classList_contains (lit "checked") attrs)).
Proof. intros Hn. unfold item_of. by rewrite Hn. Qed.

Lemma the_list_replace (ks : list node) (i : nat) (n : node) (it : Item) :
  item_of n = Some it →
  the_list (take i ks ++ n :: drop (S i) ks)
  = the_list (take i ks) ++ it :: the_list (drop (S i) ks).
Proof. intros Hit. unfold the_list. rewrite omap_app. simpl. by rewrite Hit. Qed.

Lemma remove_parent_effects p st : effects (remove_parent p st) = effects st.
Proof. unfold remove_parent. by destruct (removelast p). Qed.

(** What an event that is no successful mutation leaves alone. *)
Lemma handle_no_mutation ev st :
  mutates ev st = false →
  list_kids (handle ev st) = list_kids st
  ∧ localStorage (handle ev st) = localStorage st
  ∧ storage_writes (effects (handle ev st)) = storage_writes (effects st).
Proof.
  destruct ev as [v|key|p]; simpl; [done|..].
  - unfold on_keypress. destruct (strict_eq key (lit "Enter")); [|done].
    simpl. intros E%negb_false_iff%strict_eq_true.
    rewrite addItem_blank by done. simpl.
    split_and!; [done..|]. rewrite storage_writes_app.
    change (storage_writes [Alert _]) with 0%nat. lia.
  - unfold on_click. destruct (target_tagName st p) as [tag|]; [|done].
    intros [-> ->]%orb_false_iff. done.
Qed.

(** A successful mutation is a change of the page followed by [saveData]. *)
Lemma handle_mutation_save ev st :
  mutates ev st = true →
  ∃ mid, handle ev st = saveData mid
         ∧ localStorage mid = localStorage st ∧ effects mid = effects st.
Proof.
  destruct ev as [v|key|p]; simpl; [done|..].
  - unfold on_keypress. intros [-> E%negb_true_iff%strict_eq_false]%andb_prop.
    rewrite addItem_not_blank by done. by eexists.
  - unfold on_click. destruct (target_tagName st p) as [tag|]; [|done].
    destruct (strict_eq tag (lit "LI")); [by eexists|].
    simpl. intros ->. eexists. split; [done|].
    unfold remove_parent. by destruct (removelast p).
Qed.

(** What a successful mutation does last: it calls [setItem] with the
    markup of the container as it is now; the store takes it or throws. *)
Lemma handle_mutation ev st :
  mutates ev st = true →
  effects (handle ev st)
  = effects st
    ++ SetItem (lit "data")
         (innerHTML list_container_name (list_kids (handle ev st)))
       :: (if storage_accepts (localStorage st) (lit "data")
                (innerHTML list_container_name (list_kids (handle ev st)))
           then [] else [Uncaught (lit "QuotaExceededError")])
  ∧ localStorage (handle ev st)
    = if storage_accepts (localStorage st) (lit "data")
           (innerHTML list_container_name (list_kids (handle ev st)))
      then <[lit "data" := innerHTML list_container_name (list_kids (handle ev st))]>
             (localStorage st)
      else localStorage st.
Proof.
  intros (mid & -> & Hs & He)%handle_mutation_save.
  rewrite saveData_effects, saveData_store, saveData_kids.
  unfold save_accepted. by rewrite Hs, He.
Qed.

Lemma run_cons ev evs st : run (ev :: evs) st = run evs (handle ev st).
Proof. reflexivity. Qed.

Lemma run_writes evs st :
  storage_writes (effects (run evs st))
  = (storage_writes (effects st) + mutations evs st)%nat.
Proof.
  revert st. induction evs as [|ev evs IH]; intros st; simpl mutations.
  - simpl. lia.
  - rewrite run_cons, IH. destruct (mutates ev st) eqn:E.
    + destruct (handle_mutation_save _ _ E) as (mid & -> & _ & He).
      rewrite saveData_writes, He. lia.
    + destruct (handle_no_mutation _ _ E) as (_ & _ & ->). lia.
Qed.

(** The snapshot is current after a run when the write of its last
    mutation was accepted. *)
Lemma run_snapshot evs st b :
  last_write_accepted evs st b = true →
  (b = true →
   localStorage st !! lit "data"
   = Some (innerHTML list_container_name (list_kids st))) →
  localStorage (run evs st) !! lit "data"
  = Some (innerHTML list_container_name (list_kids (run evs st))).
Proof.
  revert st b. induction evs as [|ev evs IH]; intros st b; simpl last_write_accepted.
  - intros -> Hb. by apply Hb.
  - intros Hl Hb. rewrite run_cons. apply (IH _ _ Hl).
    destruct (mutates ev st) eqn:E.
    + intros Ha. destruct (handle_mutation _ _ E) as [_ ->]. rewrite Ha.
      apply lookup_insert_eq.
    + destruct (handle_no_mutation _ _ E) as (-> & -> & _). done.
Qed.

End AnyParser.

(** ** The claims that hold for every HTML parser *)

(** C2. For an input text that is empty or made of whitespace only,
    [addItem] shows the alert and does nothing else: the container, the
    list, the input and the store are as before, and no write reaches the
    store. *)
Theorem addItem_rejects_blank `{HtmlParser} `{WebStorage} (st : state) :
  forallb is_white_space (input_value st) = true →
  addItem st = alert (lit "You must write something!") st
  ∧ list_kids (addItem st) = list_kids st
  ∧ length (the_list (list_kids (addItem st))) = length (the_list (list_kids st))
  ∧ input_value (addItem st) = input_value st
  ∧ localStorage (addItem st) = localStorage st
  ∧ effects (addItem st) = effects st ++ [Alert (lit "You must write something!")]
  ∧ storage_writes (effects (addItem st)) = storage_writes (effects st).
Proof.
  intros Hws%trim_nil. rewrite addItem_blank by done.
  split_and!; try reflexivity. simpl.
  rewrite storage_writes_app. change (storage_writes [Alert _]) with 0%nat. lia.
Qed.

(** C5. Toggling an item twice returns its checked flag to what it was:
    the first click flips the flag, the second flips it back, and the list
    of items is the one before the two clicks. *)
Theorem toggle_twice_restores `{WebStorage} (st : state) (i : nat)
    (name : jsstring) (attrs : attributes) (ks : list node) :
  list_kids st !! i = Some (Element name attrs ks) →
  tagName name = lit "LI" →
  ∃ attrs1 attrs2,
    list_kids (on_click [i] st) !! i = Some (Element name attrs1 ks)
    ∧ classList_contains (lit "checked") attrs1
      = negb (classList_contains (lit "checked") attrs)
    ∧ list_kids (on_click [i] (on_click [i] st)) !! i
      = Some (Element name attrs2 ks)
    ∧ classList_contains (lit "checked") attrs2
      = classList_contains (lit "checked") attrs
    ∧ the_list (list_kids (on_click [i] (on_click [i] st)))
      = the_list (list_kids st).
Proof.
  intros Hi Hn.
  set (a1 := classList_toggle (lit "checked") attrs).
  set (a2 := classList_toggle (lit "checked") a1).
  assert (i < length (list_kids st))%nat as Hlt by by eapply lookup_lt_Some.
  assert (length (take i (list_kids st)) = i) as Hlen by (rewrite length_take; lia).
  rewrite (on_click_li st i name attrs ks Hi Hn). fold a1.
  assert (list_kids
            (saveData
               (set_list_kids
                  (take i (list_kids st) ++ Element name a1 ks
                   :: drop (S i) (list_kids st)) st)) !! i
          = Some (Element name a1 ks)) as Hi1.
  { rewrite saveData_kids. simpl list_kids.
    rewrite lookup_app_r by lia. by rewrite Hlen, Nat.sub_diag. }
  rewrite (on_click_li _ i name a1 ks Hi1 Hn). fold a2.
  rewrite !saveData_kids. simpl list_kids.
  rewrite take_app_length' by done.
  rewrite (drop_middle_length _ _ _ _ Hlen).
  assert (classList_contains (lit "checked") a2
          = classList_contains (lit "checked") attrs) as Hback.
  { unfold a2, a1. rewrite !classList_toggle_flips by apply valid_token_checked.
    apply negb_involutive. }
  exists a1, a2. split_and!.
  - rewrite lookup_app_r by lia. by rewrite Hlen, Nat.sub_diag.
  - apply classList_toggle_flips, valid_token_checked.
  - rewrite lookup_app_r by lia. by rewrite Hlen, Nat.sub_diag.
  - done.
  - rewrite (the_list_replace _ _ _ _ (item_of_li name a2 ks Hn)).
    rewrite (the_list_middle _ _ _ _ Hi (item_of_li name attrs ks Hn)).
    by rewrite Hback.
Qed.

(** C6. Removing an item, by a click on a [span] that is a child of its
    [li], takes that [li] out of the container.  The list loses exactly
    that item; the items before and after it stay as they were, in the
    same order. *)
Theorem delete_removes_one_item `{WebStorage} (st : state) (i j : nat)
    (name : jsstring) (attrs : attributes) (ks : list node)
    (sname : jsstring) (sattrs : attributes) (sks : list node) :
  list_kids st !! i = Some (Element name attrs ks) →
  tagName name = lit "LI" →
  ks !! j = Some (Element sname sattrs sks) →
  tagName sname = lit "SPAN" →
  ∃ it,
    item_of (Element name attrs ks) = Some it
    ∧ list_kids (on_click [i; j] st) = delete i (list_kids st)
    ∧ the_list (list_kids st)
      = the_list (take i (list_kids st)) ++ it :: the_list (drop (S i) (list_kids st))
    ∧ the_list (list_kids (on_click [i; j] st))
      = the_list (take i (list_kids st)) ++ the_list (drop (S i) (list_kids st))
    ∧ S (length (the_list (list_kids (on_click [i; j] st))))
      = length (the_list (list_kids st)).
Proof.
  intros Hi Hn Hj Hs.
  rewrite (on_click_span st i j name attrs ks sname sattrs sks Hi Hj Hs).
  rewrite saveData_kids. simpl list_kids.
  pose proof (the_list_middle _ _ _ _ Hi (item_of_li name attrs ks Hn)) as Hmid.
  assert (the_list (delete i (list_kids st))
          = the_list (take i (list_kids st)) ++ the_list (drop (S i) (list_kids st)))
    as Hdel.
  { rewrite delete_middle. unfold the_list. by rewrite omap_app. }
  eexists. split_and!; [by apply item_of_li|done|exact Hmid|exact Hdel|].
  rewrite Hdel, Hmid, !length_app. simpl. lia.
Qed.

(** C7, as amended.  When the store holds no snapshot, the script's start
    leaves the container as the page's markup made it: the list is the
    page's own list, empty exactly when the page's markup holds no item.
    The start reads the store once, alerts nothing and writes nothing,
    whatever the store holds; an empty snapshot is handled as no
    snapshot. *)
Theorem bootstrap_without_snapshot `{HtmlParser} (page_kids : list node)
    (store : gmap jsstring jsstring) :
  store !! lit "data" = None →
  list_kids (bootstrap page_kids store) = page_kids
  ∧ the_list (list_kids (bootstrap page_kids store)) = the_list page_kids
  ∧ (the_list (list_kids (bootstrap page_kids store)) = []
     ↔ the_list page_kids = [])
  ∧ bootstrap page_kids store
    = mkState [] page_kids true store [GetItem (lit "data")]
  ∧ (∀ store', effects (bootstrap page_kids store') = [GetItem (lit "data")])
  ∧ bootstrap page_kids (<[lit "data" := []]> store)
    = mkState [] page_kids true (<[lit "data" := []]> store) [GetItem (lit "data")].
Proof.
  intros Hnone.
  assert (bootstrap page_kids store
          = mkState [] page_kids true store [GetItem (lit "data")]) as Hb.
  { unfold bootstrap, showList, getItem, page_loaded. simpl. by rewrite Hnone. }
  split_and!.
  - by rewrite Hb.
  - by rewrite Hb.
  - by rewrite Hb.
  - done.
  - intros store'. unfold bootstrap, showList, getItem, page_loaded. simpl.
    by destruct (truthy (store' !! lit "data")).
  - unfold bootstrap, showList, getItem, page_loaded. simpl.
    by rewrite lookup_insert_eq.
Qed.

(** C10. Toggling an item changes the checked flag of that item and
    nothing else of the list: the [li] keeps its name and its content,
    every other child of the container is untouched, the container keeps
    its length and order, the list differs only by the flipped flag, and
    the input is as before. *)
Theorem toggle_changes_only_checked `{WebStorage} (st : state) (i : nat)
    (name : jsstring) (attrs : attributes) (ks : list node) :
  list_kids st !! i = Some (Element name attrs ks) →
  tagName name = lit "LI" →
  ∃ txt chk,
    item_of (Element name attrs ks) = Some (mkItem txt chk)
    ∧ list_kids (on_click [i] st)
      = <[i := Element name (classList_toggle (lit "checked") attrs) ks]> (list_kids st)
    ∧ the_list (list_kids st)
      = the_list (take i (list_kids st))
        ++ mkItem txt chk :: the_list (drop (S i) (list_kids st))
    ∧ the_list (list_kids (on_click [i] st))
      = the_list (take i (list_kids st))
        ++ mkItem txt (negb chk) :: the_list (drop (S i) (list_kids st))
    ∧ length (list_kids (on_click [i] st)) = length (list_kids st)
    ∧ (∀ j, j ≠ i → list_kids (on_click [i] st) !! j = list_kids st !! j)
    ∧ input_value (on_click [i] st) = input_value st.
Proof.
  intros Hi Hn.
  assert (i < length (list_kids st))%nat as Hlt by by eapply lookup_lt_Some.
  rewrite (on_click_li st i name attrs ks Hi Hn).
  rewrite saveData_kids, saveData_input. simpl list_kids. simpl input_value.
  rewrite <- insert_take_drop by done.
  eexists _, _. split_and!.
  - by apply item_of_li.
  - done.
  - by apply (the_list_middle _ _ _ _ Hi), item_of_li.
  - rewrite insert_take_drop by done.
    rewrite (the_list_replace _ _ _ _
               (item_of_li name (classList_toggle (lit "checked") attrs) ks Hn)).
    by rewrite classList_toggle_flips by apply valid_token_checked.
  - apply length_insert.
  - intros j Hj. by apply list_lookup_insert_ne.
  - done.
Qed.

(** ** The model parser on text *)

Section ModelParser.
Import Html.

Lemma markup_free_cases (s : jsstring) :
  markup_free s = true →
  forallb (fun c => negb ((c =? 0x26) || (c =? 0x3C))) s = true
  ∧ clean_text s = true.
Proof.
  unfold markup_free, clean_text. rewrite !forallb_forall. intros Hs.
  split; intros c Hc; specialize (Hs c Hc);
    destruct (c =? 0x26), (c =? 0x3C), (c =? 0), (c =? 0xD); done.
Qed.

Lemma clean_text_cases (s : jsstring) :
  clean_text s = true →
  forallb (fun c => negb (c =? 0)) s = true
  ∧ forallb (fun c => negb (c =? 0xD)) s = true.
Proof.
  unfold clean_text. rewrite !forallb_forall. intros Hs.
  split; intros c Hc; specialize (Hs c Hc);
    destruct (c =? 0), (c =? 0xD); done.
Qed.

Lemma normalize_newlines_no_cr (s : jsstring) :
  forallb (fun c => negb (c =? 0xD)) s = true → normalize_newlines s = s.
Proof.
  induction s as [|c s IH]; simpl; [done|].
  intros [Hc Hs]%andb_prop. apply negb_true_iff in Hc. rewrite Hc.
  f_equal. by apply IH.
Qed.

Lemma tokenize_text (s rest : jsstring) :
  forallb (fun c => negb ((c =? 0x26) || (c =? 0x3C))) s = true →
  tokenize Data (s ++ rest) = List.map TChar s ++ tokenize Data rest.
Proof.
  induction s as [|c s IH]; simpl; [done|].
  intros [Hc Hs]%andb_prop. apply negb_true_iff, orb_false_iff in Hc as [Ha Hl].
  unfold data_step. rewrite Ha, Hl. simpl. f_equal. by apply IH.
Qed.

Lemma build_app (toks1 toks2 : list token) (stack : list frame) :
  build (toks1 ++ toks2) stack = build toks2 (build toks1 stack).
Proof. apply fold_left_app. Qed.

(** Characters join the text node that ends the current node. *)
Lemma build_chars_join (t d : jsstring) n a ks below :
  forallb (fun c => negb (c =? 0)) t = true →
  build (List.map TChar t) (mkFrame n a (Text d :: ks) :: below)
  = mkFrame n a (Text (d ++ t) :: ks) :: below.
Proof.
  revert d. induction t as [|c t IH]; intros d; simpl.
  - by rewrite app_nil_r.
  - intros [Hc Ht]%andb_prop. apply negb_true_iff in Hc.
    unfold build in *. simpl. rewrite Hc. unfold insert_char. simpl.
    rewrite IH by done. by rewrite <- app_assoc.
Qed.

(** Characters open a text node in a current node that has no child. *)
Lemma build_chars_open (t : jsstring) n a below :
  t ≠ [] → forallb (fun c => negb (c =? 0)) t = true →
  build (List.map TChar t) (mkFrame n a [] :: below)
  = mkFrame n a [Text t] :: below.
Proof.
  destruct t as [|c t]; [done|]. intros _. simpl.
  intros [Hc Ht]%andb_prop. apply negb_true_iff in Hc.
  unfold build. simpl. rewrite Hc. unfold insert_char. simpl.
  by apply build_chars_join.
Qed.

(** The model parser turns markup-free text into one text node holding it. *)
Lemma html_parse_markup_free (s : jsstring) :
  markup_free s = true → s ≠ [] → html_parse s = [Text s].
Proof.
  intros [Htxt [Hnul Hcr]%clean_text_cases]%markup_free_cases Hne.
  unfold html_parse. rewrite normalize_newlines_no_cr by done.
  rewrite <- (app_nil_r s) at 1. rewrite tokenize_text by done.
  simpl tokenize. rewrite app_nil_r.
  unfold root. by rewrite build_chars_open.
Qed.

Lemma model_close_button : @close_button model_parser = plain_close_button.
Proof. reflexivity. Qed.

Lemma model_new_li (s : jsstring) :
  markup_free s = true → s ≠ [] →
  @new_li model_parser s = Element (lit "li") [] [Text s; plain_close_button].
Proof.
  intros Hs Hne. rewrite new_li_shape, model_close_button.
  unfold parse_fragment, model_parser. by rewrite html_parse_markup_free.
Qed.

End ModelParser.

(** ** The model parser on the snapshot of plain items *)

Section RoundTrip.
Import Html.

Lemma escape_cons (m : bool) (c : N) (s : jsstring) :
  escape m (c :: s) = escape_char m c ++ escape m s.
Proof. reflexivity. Qed.

(** Escaped text is tokenized back into its characters. *)
Lemma tokenize_escape (t rest : jsstring) :
  tokenize Data (escape false t ++ rest) = List.map TChar t ++ tokenize Data rest.
Proof.
  induction t as [|c t IH]; [done|].
  rewrite escape_cons, <- app_assoc. unfold escape_char.
  destruct (c =? 0x26) eqn:Ha.
  { apply N.eqb_eq in Ha as ->. simpl. by rewrite IH. }
  destruct (c =? 0xA0) eqn:Hn.
  { apply N.eqb_eq in Hn as ->. simpl. by rewrite IH. }
  destruct (c =? 0x3C) eqn:Hl.
  { apply N.eqb_eq in Hl as ->. simpl. by rewrite IH. }
  destruct (c =? 0x3E) eqn:Hg.
  { apply N.eqb_eq in Hg as ->. simpl. by rewrite IH. }
  simpl. unfold data_step. rewrite Ha, Hl. simpl. by rewrite IH.
Qed.

Lemma escape_no_cr (t : jsstring) :
  forallb (fun c => negb (c =? 0xD)) t = true →
  forallb (fun c => negb (c =? 0xD)) (escape false t) = true.
Proof.
  induction t as [|c t IH]; [done|]. simpl.
  intros [Hc Ht]%andb_prop. rewrite escape_cons, forallb_app, IH by done.
  rewrite andb_true_r. unfold escape_char.
  destruct (c =? 0x26); [done|]. destruct (c =? 0xA0); [done|].
  destruct (c =? 0x3C); [done|]. destruct (c =? 0x3E); [done|].
  simpl. by rewrite Hc.
Qed.

Lemma plain_attrs_cases (a : attributes) :
  plain_attrs a = true →
  a = [] ∨ a = [(lit "class", lit "checked")] ∨ a = [(lit "class", [])].
Proof.
  unfold plain_attrs. intros H.
  apply orb_prop in H as [H|H]; [apply orb_prop in H as [H|H]|];
    apply bool_decide_eq_true in H; auto.
Qed.

Lemma is_plain_close_button_eq (n : node) :
  is_plain_close_button n = true → n = plain_close_button.
Proof.
  destruct n as [d|d|name attrs [|[d| |] [|]]]; try done. simpl.
  intros [[Hn Ha]%andb_prop Hd]%andb_prop.
  apply strict_eq_true in Hn as ->. apply bool_decide_eq_true in Ha as ->.
  by apply strict_eq_true in Hd as ->.
Qed.

(** What [is_plain_item] says. *)
Lemma is_plain_item_shape (n : node) :
  is_plain_item n = true →
  ∃ attrs t,
    n = Element (lit "li") attrs [Text t; plain_close_button]
    ∧ plain_attrs attrs = true ∧ trim t ≠ [] ∧ clean_text t = true.
Proof.
  destruct n as [d|d|name attrs [|[t| |] [|b [|]]]]; try done. simpl.
  intros [[[[Hn Ha]%andb_prop Ht]%andb_prop Hc]%andb_prop Hb]%andb_prop.
  apply strict_eq_true in Hn as ->.
  apply is_plain_close_button_eq in Hb as ->.
  apply negb_true_iff, strict_eq_false in Ht. by exists attrs, t.
Qed.

Lemma plain_item_is_plain (attrs : attributes) (t : jsstring) :
  plain_attrs attrs = true → trim t ≠ [] → clean_text t = true →
  is_plain_item (Element (lit "li") attrs [Text t; plain_close_button]) = true.
Proof.
  intros Ha Ht%strict_eq_false Hc. simpl. by rewrite Ha, Ht, Hc.
Qed.


(** The markup of a plain item: the start tag, the escaped text, and the
    delete button with the end tag. *)
Lemma serialize_plain_item (attrs : attributes) (t rest : jsstring) :
  serialize_node false (Element (lit "li") attrs [Text t; plain_close_button]) ++ rest
  = (0x3C :: lit "li" ++ List.concat (List.map serialize_attr attrs) ++ [0x3E])
    ++ escape false t
    ++ serialize_node false plain_close_button ++ lit "</li>" ++ rest.
Proof.
  change (lit "</li>") with (0x3C :: 0x2F :: lit "li" ++ [0x3E]).
  cbn [serialize_node].
  change (name_in (lit "li") void_elements) with false.
  change (name_in (lit "li") raw_text_parents) with false.
  cbn [List.map List.concat]. rewrite app_nil_r.
  repeat first [rewrite <- app_assoc | rewrite <- app_comm_cons].
  reflexivity.
Qed.

Lemma tokenize_li_start (attrs : attributes) (rest : jsstring) :
  plain_attrs attrs = true →
  tokenize Data
    ((0x3C :: lit "li" ++ List.concat (List.map serialize_attr attrs) ++ [0x3E]) ++ rest)
  = TTag (mkTag false (lit "li") attrs false) :: tokenize Data rest.
Proof.
  intros [->|[->| ->]]%plain_attrs_cases; reflexivity.
Qed.

Lemma tokenize_item_end (rest : jsstring) :
  tokenize Data (serialize_node false plain_close_button ++ lit "</li>" ++ rest)
  = TTag (mkTag false (lit "span") [(lit "class", lit "close")] false)
    :: TChar 0xD7
    :: TTag (mkTag true (lit "span") [] false)
    :: TTag (mkTag true (lit "li") [] false)
    :: tokenize Data rest.
Proof. reflexivity. Qed.

(** The tokens of a plain item. *)
Lemma tokenize_plain_item (attrs : attributes) (t rest : jsstring) :
  plain_attrs attrs = true →
  tokenize Data
    (serialize_node false (Element (lit "li") attrs [Text t; plain_close_button]) ++ rest)
  = (TTag (mkTag false (lit "li") attrs false) :: List.map TChar t)
    ++ [TTag (mkTag false (lit "span") [(lit "class", lit "close")] false);
        TChar 0xD7;
        TTag (mkTag true (lit "span") [] false);
        TTag (mkTag true (lit "li") [] false)]
    ++ tokenize Data rest.
Proof.
  intros Ha. rewrite serialize_plain_item, tokenize_li_start by done.
  by rewrite tokenize_escape, tokenize_item_end.
Qed.

(** The tree builder on the tokens of a plain item: the item becomes the
    last child of the root. *)
Lemma build_plain_item (attrs : attributes) (t : jsstring) (ks : list node)
    (toks : list token) :
  t ≠ [] → forallb (fun c => negb (c =? 0)) t = true →
  build
    ((TTag (mkTag false (lit "li") attrs false) :: List.map TChar t)
     ++ [TTag (mkTag false (lit "span") [(lit "class", lit "close")] false);
         TChar 0xD7;
         TTag (mkTag true (lit "span") [] false);
         TTag (mkTag true (lit "li") [] false)]
     ++ toks)
    [mkFrame (lit "html") [] ks]
  = build toks
      [mkFrame (lit "html") []
         (Element (lit "li") attrs [Text t; plain_close_button] :: ks)].
Proof.
  intros Hne Hnul. rewrite build_app.
  change (build (TTag (mkTag false (lit "li") attrs false) :: List.map TChar t)
            [mkFrame (lit "html") [] ks])
    with (build (List.map TChar t)
            [mkFrame (lit "li") attrs []; mkFrame (lit "html") [] ks]).
  rewrite build_chars_open by done. rewrite build_app. reflexivity.
Qed.

End RoundTrip.

(** ** Plain states: snapshot round trip and invariance *)

Section Plain.
Import Html.
Context `{WebStorage}.

Lemma forallb_Forall {A} (f : A → bool) (l : list A) :
  forallb f l = true ↔ Forall (fun x => f x = true) l.
Proof.
  rewrite forallb_forall, Forall_forall.
  split; intros Hl x Hx; apply Hl; by apply list_elem_of_In.
Qed.

Lemma trim_not_nil (t : jsstring) : trim t ≠ [] → t ≠ [].
Proof. by intros Ht ->. Qed.

Lemma innerHTML_list (ks : list node) :
  innerHTML list_container_name ks
  = List.concat (List.map (serialize_node false) ks).
Proof. reflexivity. Qed.

Lemma snapshot_no_cr (ks : list node) :
  forallb is_plain_item ks = true →
  forallb (fun c => negb (c =? 0xD))
    (List.concat (List.map (serialize_node false) ks)) = true.
Proof.
  induction ks as [|k ks IH]; [done|]. simpl forallb.
  intros [Hk Hks]%andb_prop.
  apply is_plain_item_shape in Hk as (attrs & t & -> & Ha & _ & Hc).
  apply clean_text_cases in Hc as [_ Hcr].
  cbn [List.map List.concat]. rewrite serialize_plain_item.
  rewrite !forallb_app, IH, escape_no_cr by done.
  apply plain_attrs_cases in Ha as [->|[->| ->]]; reflexivity.
Qed.

Lemma parse_snapshot_from (ks acc : list node) :
  forallb is_plain_item ks = true →
  finish_stack
    (build (tokenize Data (List.concat (List.map (serialize_node false) ks)))
       [mkFrame (lit "html") [] acc])
  = rev acc ++ ks.
Proof.
  revert acc. induction ks as [|k ks IH]; intros acc.
  - intros _. simpl. by rewrite app_nil_r.
  - simpl forallb. intros [Hk Hks]%andb_prop.
    apply is_plain_item_shape in Hk as (attrs & t & -> & Ha & Ht & Hc).
    apply clean_text_cases in Hc as [Hnul _].
    cbn [List.map List.concat].
    rewrite tokenize_plain_item by done.
    rewrite build_plain_item by (by apply trim_not_nil || done).
    rewrite IH by done. simpl. by rewrite <- app_assoc.
Qed.

(** The model parser reads the snapshot of plain items back into them. *)
Lemma html_parse_snapshot (ks : list node) :
  forallb is_plain_item ks = true →
  html_parse (innerHTML list_container_name ks) = ks.
Proof.
  intros Hks. unfold html_parse. rewrite innerHTML_list.
  rewrite normalize_newlines_no_cr by by apply snapshot_no_cr.
  unfold root. by rewrite parse_snapshot_from.
Qed.

(** The snapshot of a list that has an item is not the empty string. *)
Lemma snapshot_truthy (k : node) (ks : list node) :
  is_plain_item k = true →
  truthy (Some (innerHTML list_container_name (k :: ks))) = true.
Proof.
  intros (attrs & t & -> & _)%is_plain_item_shape. reflexivity.
Qed.

Lemma plain_toggle (attrs : attributes) :
  plain_attrs attrs = true →
  plain_attrs (classList_toggle (lit "checked") attrs) = true.
Proof. intros [->|[->| ->]]%plain_attrs_cases; reflexivity. Qed.

Lemma node_at_nil (p : path) : node_at [] p = None.
Proof. by destruct p. Qed.

(** In a list of plain items the only elements are the items and their
    delete buttons: a click is a toggle of an item, the removal of an
    item, or nothing. *)
Lemma plain_click (p : path) (st : state) :
  forallb is_plain_item (list_kids st) = true →
  on_click p st = st
  ∨ (∃ i attrs t,
       list_kids st !! i = Some (Element (lit "li") attrs [Text t; plain_close_button])
       ∧ plain_attrs attrs = true ∧ trim t ≠ [] ∧ clean_text t = true
       ∧ on_click p st
         = saveData
             (set_list_kids
                (take i (list_kids st)
                 ++ Element (lit "li") (classList_toggle (lit "checked") attrs)
                      [Text t; plain_close_button]
                 :: drop (S i) (list_kids st)) st))
  ∨ (∃ i, on_click p st
          = saveData (set_list_kids (delete i (list_kids st)) st)).
Proof.
  intros Hks. destruct p as [|i q]; [by left|].
  destruct (list_kids st !! i) as [n|] eqn:Hi.
  2:{ left. unfold on_click, target_tagName. simpl. by rewrite Hi. }
  assert (is_plain_item n = true) as Hn.
  { apply forallb_Forall in Hks. rewrite Forall_lookup in Hks. by eapply Hks. }
  apply is_plain_item_shape in Hn as (attrs & t & -> & Ha & Ht & Hc).
  destruct q as [|j q].
  - right. left. exists i, attrs, t. split_and!; try done.
    by apply on_click_li.
  - destruct j as [|[|j]].
    + left. unfold on_click, target_tagName. simpl. rewrite Hi. simpl.
      destruct q; [done|]. by rewrite node_at_nil.
    + destruct q as [|k q].
      * right. right. exists i.
        eapply (on_click_span st i 1); [exact Hi|reflexivity..].
      * left. unfold on_click, target_tagName. simpl. rewrite Hi. simpl.
        destruct k as [|k]; simpl; [|done].
        destruct q; [done|]. by rewrite node_at_nil.
    + left. unfold on_click, target_tagName. simpl. by rewrite Hi.
Qed.

Lemma plain_state_cases (st : state) :
  plain_state st = true ↔
  forallb is_plain_item (list_kids st) = true ∧ markup_free (input_value st) = true.
Proof. unfold plain_state. apply andb_true_iff. Qed.

(** Handling an event keeps a plain state plain, as long as what the user
    types is markup-free. *)
Lemma handle_plain (ev : event) (st : state) :
  plain_state st = true → types_markup_free [ev] = true →
  plain_state (@handle model_parser _ ev st) = true.
Proof.
  intros [Hks Hin]%plain_state_cases Hev. apply plain_state_cases.
  destruct ev as [v|key|p]; simpl in *.
  - by rewrite andb_true_r in Hev.
  - unfold on_keypress. destruct (strict_eq key (lit "Enter")); [|done].
    destruct (decide (trim (input_value st) = [])) as [Hb|Hb].
    + by rewrite (@addItem_blank model_parser _).
    + rewrite (@addItem_not_blank model_parser _) by done.
      rewrite saveData_kids, saveData_input. simpl. split; [|done].
      rewrite model_new_li by (by apply trim_not_nil || done).
      rewrite forallb_app, Hks. simpl. rewrite andb_true_r.
      apply (plain_item_is_plain []); [done..|].
      by apply markup_free_cases in Hin as [_ ?].
  - destruct (plain_click p st Hks)
      as [->|[(i & attrs & t & Hi & Ha & Ht & Hc & ->)|(i & ->)]]; [done|..].
    + rewrite saveData_kids, saveData_input. simpl. split; [|done].
      apply forallb_Forall in Hks. apply forallb_Forall.
      apply Forall_app. split; [by apply Forall_take|].
      constructor; [|by apply Forall_drop].
      apply plain_item_is_plain; [by apply plain_toggle|done..].
    + rewrite saveData_kids, saveData_input. simpl. split; [|done].
      apply forallb_Forall in Hks. apply forallb_Forall.
      by apply Forall_delete.
Qed.

Lemma run_plain (evs : list event) (st : state) :
  plain_state st = true → types_markup_free evs = true →
  plain_state (@run model_parser _ evs st) = true.
Proof.
  revert st. induction evs as [|ev evs IH]; intros st Hst Hevs; [done|].
  simpl in Hevs. apply andb_prop in Hevs as [Hev Hevs].
  rewrite (@run_cons model_parser _). apply IH; [|done].
  apply handle_plain; [done|]. simpl. by rewrite Hev.
Qed.

(** The text of a plain item is the data of its text node. *)
Lemma item_of_plain (attrs : attributes) (t : jsstring) :
  item_of (Element (lit "li") attrs [Text t; plain_close_button])
  = Some (mkItem t (classList_contains (lit "checked") attrs)).
Proof.
  rewrite item_of_li by reflexivity. f_equal. f_equal.
  change (List.filter (fun k => negb (is_close_button k)) [Text t; plain_close_button])
    with [Text t].
  simpl. apply app_nil_r.
Qed.

Lemma plain_items_not_blank (ks : list node) :
  forallb is_plain_item ks = true →
  Forall (fun it => trim (text it) ≠ []) (the_list ks).
Proof.
  induction ks as [|k ks IH]; [constructor|]. simpl forallb.
  intros [Hk Hks]%andb_prop.
  apply is_plain_item_shape in Hk as (attrs & t & -> & _ & Ht & _).
  unfold the_list. cbn [omap list_omap]. rewrite item_of_plain.
  constructor; [done|by apply IH].
Qed.

End Plain.

(** ** The model parser at work *)

Example parse_text :
  Html.html_parse (lit "Buy milk") = [Text (lit "Buy milk")].
Proof. reflexivity. Qed.

Example parse_reference :
  Html.html_parse (lit "Tom &amp; Jerry") = [Text (lit "Tom & Jerry")].
Proof. reflexivity. Qed.

Example parse_element :
  Html.html_parse (lit "<B Class=x>bold</B> text")
  = [Element (lit "b") [(lit "class", lit "x")] [Text (lit "bold")];
     Text (lit " text")].
Proof. reflexivity. Qed.

Example parse_comment_and_void :
  Html.html_parse (lit "a<!-- note --><br>b")
  = [Text (lit "a"); Comment (lit " note "); Element (lit "br") [] [];
     Text (lit "b")].
Proof. reflexivity. Qed.

(** In an [li] that is being filled, an [<li>] start tag opens a nested
    item: the [li] itself is the context, not an open element. *)
Example parse_li_in_li :
  Html.html_parse (lit "a<li>b")
  = [Text (lit "a"); Element (lit "li") [] [Text (lit "b")]].
Proof. reflexivity. Qed.

(** In the markup of the container, an [<li>] start tag closes the [li]
    that is open. *)
Example parse_li_after_li :
  Html.html_parse (lit "<li>a<li>b</li></li>")
  = [Element (lit "li") [] [Text (lit "a")];
     Element (lit "li") [] [Text (lit "b")]].
Proof. reflexivity. Qed.

(** The scenario of the spec: add "Task A", delete it, reload.  The store
    holds the empty string and the list is empty. *)
Example add_delete_reload :
  localStorage
    (demo_run (adds "Task A" ++ [Click [0%nat; 1%nat]]) fresh_page)
  !! lit "data" = Some []
  ∧ the_list
      (list_kids
         (@bootstrap model_parser []
            (localStorage
               (demo_run (adds "Task A" ++ [Click [0%nat; 1%nat]])
                  fresh_page))))
    = [].
Proof. split; by vm_compute. Qed.

(** ** The claims that depend on what the parser makes of the text *)

(** C1, as amended.  For an input text that is not empty once trimmed,
    [addItem] appends exactly one [li] at the end of the container: an
    unchecked item whose content is what the parser makes of the text,
    followed by the delete button.  The list grows by one item, the input
    is cleared, and the call ends with [setItem] of the container's new
    markup, which the store takes or refuses.  When the text is
    markup-free the entry reflects it: the item holds one text node with
    the text as it was typed, and that is the item's text. *)
Theorem addItem_appends_one_item `{HtmlParser} `{WebStorage} (st : state) :
  trim (input_value st) ≠ [] →
  list_kids (addItem st) = list_kids st ++ [new_li (input_value st)]
  ∧ kids_of (new_li (input_value st))
    = parse_fragment (lit "li") (input_value st) ++ [close_button]
  ∧ the_list (list_kids (addItem st))
    = the_list (list_kids st) ++ [mkItem (entry_text (input_value st)) false]
  ∧ length (the_list (list_kids (addItem st)))
    = S (length (the_list (list_kids st)))
  ∧ input_value (addItem st) = []
  ∧ effects (addItem st)
    = effects st
      ++ SetItem (lit "data")
           (innerHTML list_container_name (list_kids (addItem st)))
         :: (if storage_accepts (localStorage st) (lit "data")
                  (innerHTML list_container_name (list_kids (addItem st)))
             then [] else [Uncaught (lit "QuotaExceededError")])
  ∧ localStorage (addItem st)
    = (if storage_accepts (localStorage st) (lit "data")
            (innerHTML list_container_name (list_kids (addItem st)))
       then <[lit "data" := innerHTML list_container_name (list_kids (addItem st))]>
              (localStorage st)
       else localStorage st)
  ∧ (markup_free (input_value st) = true →
     list_kids (@addItem model_parser _ st)
     = list_kids st
       ++ [Element (lit "li") [] [Text (input_value st); plain_close_button]]
     ∧ the_list (list_kids (@addItem model_parser _ st))
       = the_list (list_kids st) ++ [mkItem (input_value st) false]).
Proof.
  intros Hne. split_and!.
  - rewrite addItem_not_blank by done. by rewrite saveData_kids.
  - reflexivity.
  - rewrite addItem_not_blank by done. rewrite saveData_kids. simpl list_kids.
    apply the_list_snoc, item_of_new_li.
  - rewrite addItem_not_blank by done. rewrite saveData_kids. simpl list_kids.
    rewrite (the_list_snoc _ _ _ (item_of_new_li (input_value st))), length_app.
    simpl. lia.
  - rewrite addItem_not_blank by done. by rewrite saveData_input.
  - rewrite addItem_not_blank by done.
    by rewrite saveData_effects, saveData_kids.
  - rewrite addItem_not_blank by done.
    by rewrite saveData_store, saveData_kids.
  - intros Hfree. rewrite (@addItem_not_blank model_parser _) by done.
    rewrite saveData_kids. simpl list_kids.
    rewrite model_new_li by (by apply trim_not_nil || done).
    split; [done|]. apply the_list_snoc, item_of_plain.
Qed.

(** C9, as amended.  For an input text that is markup-free (no [&], no
    [<], no U+0000, no CR) and not empty once trimmed, the item that
    [addItem] creates has the input text as its text, untrimmed: leading
    and trailing whitespace are kept. *)
Theorem addItem_keeps_markup_free_text `{WebStorage} (st : state) :
  markup_free (input_value st) = true →
  trim (input_value st) ≠ [] →
  list_kids (@addItem model_parser _ st)
  = list_kids st ++ [Element (lit "li") [] [Text (input_value st); plain_close_button]]
  ∧ the_list (list_kids (@addItem model_parser _ st))
    = the_list (list_kids st) ++ [mkItem (input_value st) false].
Proof.
  intros Hfree Hne. rewrite (@addItem_not_blank model_parser _) by done.
  rewrite saveData_kids. simpl list_kids.
  rewrite model_new_li by (by apply trim_not_nil || done).
  split; [done|]. apply the_list_snoc, item_of_plain.
Qed.

(** C3, as amended.  Start from a state whose list holds plain items (the
    empty list is one) and let the user add markup-free texts, toggle and
    delete in any order, then save, the store accepting that write.  A
    page whose markup holds no item, started on the store as it is then,
    shows the same sequence of items; when the list is not empty the
    container has the very same child nodes. *)
Theorem snapshot_round_trip_plain `{WebStorage} (st : state) (evs : list event)
    (page_kids : list node) :
  plain_state st = true →
  types_markup_free evs = true →
  save_accepted (@run model_parser _ evs st) = true →
  the_list page_kids = [] →
  the_list
    (list_kids
       (@bootstrap model_parser page_kids
          (localStorage (saveData (@run model_parser _ evs st)))))
  = the_list (list_kids (@run model_parser _ evs st))
  ∧ (list_kids (@run model_parser _ evs st) ≠ [] →
     list_kids
       (@bootstrap model_parser page_kids
          (localStorage (saveData (@run model_parser _ evs st))))
     = list_kids (@run model_parser _ evs st)).
Proof.
  intros Hst Hevs Hacc Hpage.
  pose proof (run_plain evs st Hst Hevs) as [Hks _]%plain_state_cases.
  set (st' := @run model_parser _ evs st) in *.
  unfold bootstrap, showList, getItem, page_loaded. cbn [localStorage].
  rewrite (saveData_store_accepted st' Hacc). cbn [default].
  destruct (list_kids st') as [|k ks] eqn:Ek.
  - simpl. by rewrite Hpage.
  - simpl in Hks. apply andb_prop in Hks as Hk. destruct Hk as [Hk _].
    rewrite (snapshot_truthy k ks Hk). cbn [list_kids set_list_kids].
    unfold parse_fragment, model_parser, id.
    by rewrite (html_parse_snapshot (k :: ks) Hks).
Qed.

(** C4, as amended.  Along any run of events [setItem] is called once per
    successful mutation: the number of calls grows by the number of
    mutations.  A mutation ends with the call, made with the markup of the
    container as the mutation left it; the store takes the markup, or it
    throws and keeps what it held.  So the stored snapshot is the markup
    of the current container whenever the write of the last mutation was
    accepted.  That markup reflects the list: of a list of plain items it
    is read back by the parser into the same children. *)
Theorem every_mutation_persists `{HtmlParser} `{WebStorage}
    (evs : list event) (st : state) :
  storage_writes (effects (run evs st))
  = (storage_writes (effects st) + mutations evs st)%nat
  ∧ (last_write_accepted evs st false = true →
     localStorage (run evs st) !! lit "data"
     = Some (innerHTML list_container_name (list_kids (run evs st))))
  ∧ (∀ ev, mutates ev st = true →
       effects (handle ev st)
       = effects st
         ++ SetItem (lit "data")
              (innerHTML list_container_name (list_kids (handle ev st)))
            :: (if storage_accepts (localStorage st) (lit "data")
                     (innerHTML list_container_name (list_kids (handle ev st)))
                then [] else [Uncaught (lit "QuotaExceededError")])
       ∧ localStorage (handle ev st)
         = if storage_accepts (localStorage st) (lit "data")
                (innerHTML list_container_name (list_kids (handle ev st)))
           then <[lit "data" :=
                    innerHTML list_container_name (list_kids (handle ev st))]>
                  (localStorage st)
           else localStorage st)
  ∧ (∀ ev, mutates ev st = false →
       list_kids (handle ev st) = list_kids st
       ∧ localStorage (handle ev st) = localStorage st)
  ∧ (∀ ks, forallb is_plain_item ks = true →
       Html.html_parse (innerHTML list_container_name ks) = ks).
Proof.
  split_and!.
  - apply run_writes.
  - intros Hm. by apply (run_snapshot evs st false).
  - intros ev Hev. by apply handle_mutation.
  - intros ev Hev. by destruct (handle_no_mutation ev st Hev) as (? & ? & _).
  - apply html_parse_snapshot.
Qed.

(** C8, as amended.  In every state reached from a state of plain items
    by events in which the user types markup-free texts only, every item's
    text is not empty once trimmed.  The test is [addItem]'s alone: a
    toggle alerts nothing and leaves the texts of all items as they are,
    whatever they are. *)
Theorem plain_items_never_blank `{WebStorage} (st : state) (evs : list event) :
  plain_state st = true →
  types_markup_free evs = true →
  Forall (fun it => trim (text it) ≠ [])
    (the_list (list_kids (@run model_parser _ evs st)))
  ∧ (∀ (st' : state) (i : nat) name attrs ks,
       list_kids st' !! i = Some (Element name attrs ks) →
       tagName name = lit "LI" →
       List.map text (the_list (list_kids (on_click [i] st')))
       = List.map text (the_list (list_kids st'))
       ∧ alerts (effects (on_click [i] st')) = alerts (effects st')).
Proof.
  intros Hst Hevs. split.
  - apply plain_items_not_blank.
    by pose proof (run_plain evs st Hst Hevs) as [Hks _]%plain_state_cases.
  - intros st' i name attrs ks Hi Hn.
    rewrite (on_click_li st' i name attrs ks Hi Hn).
    rewrite saveData_alerts, saveData_kids. cbn [list_kids effects set_list_kids].
    split; [|done].
    rewrite (the_list_replace _ _ _ _
               (item_of_li name (classList_toggle (lit "checked") attrs) ks Hn)).
    rewrite (the_list_middle _ _ _ _ Hi (item_of_li name attrs ks Hn)).
    by rewrite !map_app.
Qed.

(** ** Where the specification breaks: markup in the text, a refused
    write, a page with items *)

(** C1 fails on markup.  The text [</span>] is not blank, so [addItem]
    appends an item for it; the parser drops the stray end tag, and the
    entry holds the delete button alone: nothing of it reflects the
    text. *)
Lemma entry_is_empty_on_markup :
  trim (lit "</span>") ≠ []
  ∧ list_kids (demo_addItem (set_input_value (lit "</span>") fresh_page))
    = [Element (lit "li") [] [plain_close_button]]
  ∧ the_list (list_kids (demo_addItem (set_input_value (lit "</span>") fresh_page)))
    = [mkItem [] false].
Proof. split_and!; by vm_compute. Qed.

(** C3 fails on markup, and on a refused save.  The user adds the text
    [a<li>b]: the [innerHTML] setter of the new [li] nests an [li] in it,
    so the list has one item, showing "ab".  The add has saved.  On reload
    the same markup is parsed in the container, where the second [<li>]
    closes the first: the list has two items.  And with a store of 64
    code units the save after a second plain item is refused: the reload
    shows the first item alone. *)
Lemma snapshot_round_trip_fails_on_markup :
  the_list (list_kids (demo_run (adds "a<li>b") fresh_page))
  = [mkItem (lit "ab") false]
  ∧ localStorage (demo_run (adds "a<li>b") fresh_page) !! lit "data"
    = Some (innerHTML list_container_name
              (list_kids (demo_run (adds "a<li>b") fresh_page)))
  ∧ the_list
      (list_kids
         (@bootstrap model_parser []
            (localStorage (demo_run (adds "a<li>b") fresh_page))))
    = [mkItem (lit "a") false; mkItem (lit "b") false]
  ∧ the_list
      (list_kids
         (@bootstrap model_parser []
            (localStorage (demo_run (adds "a<li>b") fresh_page))))
    ≠ the_list (list_kids (demo_run (adds "a<li>b") fresh_page))
  ∧ the_list
      (list_kids (tight_run (adds "Buy milk" ++ adds "Walk dog") fresh_page))
    = [mkItem (lit "Buy milk") false; mkItem (lit "Walk dog") false]
  ∧ the_list
      (list_kids
         (@bootstrap model_parser []
            (localStorage
               (tight_save
                  (tight_run (adds "Buy milk" ++ adds "Walk dog") fresh_page)))))
    = [mkItem (lit "Buy milk") false].
Proof. split_and!; by vm_compute. Qed.

(** C4 fails on a refused write.  With a store of 64 code units the write
    after the first add is accepted and the write after the second is
    refused: [setItem] throws, the container has two items, and the
    snapshot that is present is still the markup of the first alone. *)
Lemma stale_snapshot_after_refused_write :
  the_list
    (list_kids (tight_run (adds "Buy milk" ++ adds "Walk dog") fresh_page))
  = [mkItem (lit "Buy milk") false; mkItem (lit "Walk dog") false]
  ∧ localStorage (tight_run (adds "Buy milk" ++ adds "Walk dog") fresh_page)
    !! lit "data"
    = Some (innerHTML list_container_name
              (list_kids (tight_run (adds "Buy milk") fresh_page)))
  ∧ localStorage (tight_run (adds "Buy milk" ++ adds "Walk dog") fresh_page)
    !! lit "data"
    ≠ Some (innerHTML list_container_name
              (list_kids
                 (tight_run (adds "Buy milk" ++ adds "Walk dog") fresh_page)))
  ∧ List.last
      (effects (tight_run (adds "Buy milk" ++ adds "Walk dog") fresh_page))
      (Alert [])
    = Uncaught (lit "QuotaExceededError").
Proof. split_and!; by vm_compute. Qed.

(** C7 fails on a page with items.  With no snapshot in the store, the
    start empties nothing: an item in the page's own markup is in the
    list. *)
Lemma page_items_survive_the_start :
  (∅ : gmap jsstring jsstring) !! lit "data" = None
  ∧ the_list
      (list_kids
         (@bootstrap model_parser [Element (lit "li") [] [Text (lit "static")]] ∅))
    = [mkItem (lit "static") false]
  ∧ the_list
      (list_kids
         (@bootstrap model_parser [Element (lit "li") [] [Text (lit "static")]] ∅))
    ≠ [].
Proof. split_and!; by vm_compute. Qed.

(** C8 fails on markup.  The text [</span>] is not blank, so [addItem]
    accepts it; the parser drops the stray end tag, and the item that
    results has no text at all. *)
Lemma blank_item_from_markup :
  trim (lit "</span>") ≠ []
  ∧ the_list (list_kids (demo_run (adds "</span>") fresh_page))
    = [mkItem [] false]
  ∧ trim (text (mkItem [] false)) = [].
Proof. split_and!; by vm_compute. Qed.

(** C9 fails on markup.  For the text [a</span>] the item's text is "a",
    and so is the markup read back from the [li]: neither is the raw
    input. *)
Lemma item_text_differs_on_markup :
  trim (lit "a</span>") ≠ []
  ∧ the_list
      (list_kids
         (demo_addItem (set_input_value (lit "a</span>") fresh_page)))
    = [mkItem (lit "a") false]
  ∧ lit "a" ≠ lit "a</span>"
  ∧ innerHTML (lit "li") (@parse_fragment model_parser (lit "li") (lit "a</span>"))
    ≠ lit "a</span>".
Proof. split_and!; by vm_compute. Qed.

(** ** Worked examples *)

Lemma addItem_appends_one_item_witness :
  trim (input_value (set_input_value (lit "Buy milk") fresh_page)) ≠ []
  ∧ markup_free (input_value (set_input_value (lit "Buy milk") fresh_page)) = true
  ∧ the_list
      (list_kids (demo_addItem (set_input_value (lit "Buy milk") fresh_page)))
    = [mkItem (lit "Buy milk") false]
  ∧ effects (demo_addItem (set_input_value (lit "Buy milk") fresh_page))
    = [GetItem (lit "data");
       SetItem (lit "data")
         (lit "<li>Buy milk<span class=" ++ 0x22 :: lit "close" ++ 0x22 :: 0x3E
          :: 0xD7 :: lit "</span></li>")].
Proof.
  assert (trim (input_value (set_input_value (lit "Buy milk") fresh_page)) ≠ [])
    as Hne by by vm_compute.
  assert (markup_free
            (input_value (set_input_value (lit "Buy milk") fresh_page)) = true)
    as Hfree by reflexivity.
  destruct (@addItem_appends_one_item model_parser unlimited_storage _ Hne)
    as (_ & _ & _ & _ & _ & He & _ & Hm).
  split_and!; [exact Hne|exact Hfree|exact (proj2 (Hm Hfree))|].
  rewrite He. vm_compute. reflexivity.
Defined.

Lemma addItem_rejects_blank_witness :
  forallb is_white_space (input_value (set_input_value (lit "   ") fresh_page)) = true
  ∧ demo_addItem (set_input_value (lit "   ") fresh_page)
    = alert (lit "You must write something!") (set_input_value (lit "   ") fresh_page).
Proof.
  assert (forallb is_white_space
            (input_value (set_input_value (lit "   ") fresh_page)) = true)
    as Hws by reflexivity.
  split; [exact Hws|].
  exact (proj1 (@addItem_rejects_blank model_parser unlimited_storage _ Hws)).
Defined.

Lemma every_mutation_persists_witness :
  @last_write_accepted model_parser unlimited_storage shopping fresh_page false
  = true
  ∧ storage_writes (effects (demo_run shopping fresh_page)) = 3%nat
  ∧ localStorage (demo_run shopping fresh_page) !! lit "data"
    = Some (lit "<li class=" ++ 0x22 :: lit "checked" ++ 0x22
            :: lit ">Buy milk<span class=" ++ 0x22 :: lit "close" ++ 0x22 :: 0x3E
            :: 0xD7 :: lit "</span></li><li>Walk dog<span class=" ++ 0x22
            :: lit "close" ++ 0x22 :: 0x3E :: 0xD7 :: lit "</span></li>").
Proof.
  assert (@last_write_accepted model_parser unlimited_storage shopping fresh_page
            false = true) as Hm by reflexivity.
  destruct (@every_mutation_persists model_parser unlimited_storage shopping
              fresh_page) as (Hw & Hs & _).
  split_and!; [exact Hm| |].
  - rewrite Hw. vm_compute. reflexivity.
  - rewrite (Hs Hm). vm_compute. reflexivity.
Defined.

Lemma toggle_twice_restores_witness :
  list_kids (demo_run (adds "Buy milk") fresh_page) !! 0%nat
  = Some (Element (lit "li") [] [Text (lit "Buy milk"); plain_close_button])
  ∧ tagName (lit "li") = lit "LI"
  ∧ the_list
      (list_kids
         (demo_click [0%nat]
            (demo_click [0%nat] (demo_run (adds "Buy milk") fresh_page))))
    = the_list (list_kids (demo_run (adds "Buy milk") fresh_page)).
Proof.
  assert (list_kids (demo_run (adds "Buy milk") fresh_page) !! 0%nat
          = Some (Element (lit "li") [] [Text (lit "Buy milk"); plain_close_button]))
    as Hi by reflexivity.
  assert (tagName (lit "li") = lit "LI") as Hn by reflexivity.
  split_and!; [exact Hi|exact Hn|].
  destruct (@toggle_twice_restores unlimited_storage _ _ _ _ _ Hi Hn)
    as (a1 & a2 & _ & _ & _ & _ & Hl).
  exact Hl.
Defined.

Lemma delete_removes_one_item_witness :
  list_kids (demo_run shopping fresh_page) !! 0%nat
  = Some (Element (lit "li") [(lit "class", lit "checked")]
            [Text (lit "Buy milk"); plain_close_button])
  ∧ tagName (lit "li") = lit "LI"
  ∧ [Text (lit "Buy milk"); plain_close_button] !! 1%nat = Some plain_close_button
  ∧ tagName (lit "span") = lit "SPAN"
  ∧ the_list
      (list_kids (demo_click [0%nat; 1%nat] (demo_run shopping fresh_page)))
    = [mkItem (lit "Walk dog") false].
Proof.
  assert (list_kids (demo_run shopping fresh_page) !! 0%nat
          = Some (Element (lit "li") [(lit "class", lit "checked")]
                    [Text (lit "Buy milk"); plain_close_button]))
    as Hi by reflexivity.
  assert (tagName (lit "li") = lit "LI") as Hn by reflexivity.
  assert ([Text (lit "Buy milk"); plain_close_button] !! 1%nat
          = Some plain_close_button) as Hj by reflexivity.
  assert (tagName (lit "span") = lit "SPAN") as Hs by reflexivity.
  split_and!; [exact Hi|exact Hn|exact Hj|exact Hs|].
  destruct (@delete_removes_one_item unlimited_storage _ _ _ _ _ _ _ _ _
              Hi Hn Hj Hs) as (it & _ & _ & _ & -> & _).
  vm_compute. reflexivity.
Defined.

Lemma bootstrap_without_snapshot_witness :
  (∅ : gmap jsstring jsstring) !! lit "data" = None
  ∧ the_list (list_kids (@bootstrap model_parser [] ∅)) = []
  ∧ the_list
      (list_kids
         (@bootstrap model_parser [Element (lit "li") [] [Text (lit "static")]] ∅))
    = [mkItem (lit "static") false].
Proof.
  assert ((∅ : gmap jsstring jsstring) !! lit "data" = None) as Hs by reflexivity.
  split_and!; [exact Hs| |].
  - exact (proj1 (proj2 (@bootstrap_without_snapshot model_parser [] ∅ Hs))).
  - rewrite (proj1 (proj2 (@bootstrap_without_snapshot model_parser
                             [Element (lit "li") [] [Text (lit "static")]] ∅ Hs))).
    vm_compute. reflexivity.
Defined.

Lemma toggle_changes_only_checked_witness :
  list_kids (demo_run (adds "Buy milk" ++ adds "Walk dog") fresh_page) !! 0%nat
  = Some (Element (lit "li") [] [Text (lit "Buy milk"); plain_close_button])
  ∧ tagName (lit "li") = lit "LI"
  ∧ the_list
      (list_kids
         (demo_click [0%nat]
            (demo_run (adds "Buy milk" ++ adds "Walk dog") fresh_page)))
    = [mkItem (lit "Buy milk") true; mkItem (lit "Walk dog") false].
Proof.
  assert (list_kids
            (demo_run (adds "Buy milk" ++ adds "Walk dog") fresh_page) !! 0%nat
          = Some (Element (lit "li") [] [Text (lit "Buy milk"); plain_close_button]))
    as Hi by reflexivity.
  assert (tagName (lit "li") = lit "LI") as Hn by reflexivity.
  split_and!; [exact Hi|exact Hn|].
  destruct (@toggle_changes_only_checked unlimited_storage _ _ _ _ _ Hi Hn)
    as (txt & chk & Hit & _ & _ & -> & _).
  vm_compute in Hit. injection Hit as <- <-. vm_compute. reflexivity.
Defined.

Lemma addItem_keeps_markup_free_text_witness :
  markup_free (input_value (set_input_value (lit "  Buy milk ") fresh_page)) = true
  ∧ trim (input_value (set_input_value (lit "  Buy milk ") fresh_page)) ≠ []
  ∧ the_list
      (list_kids
         (demo_addItem (set_input_value (lit "  Buy milk ") fresh_page)))
    = [mkItem (lit "  Buy milk ") false].
Proof.
  assert (markup_free
            (input_value (set_input_value (lit "  Buy milk ") fresh_page)) = true)
    as Hf by reflexivity.
  assert (trim (input_value (set_input_value (lit "  Buy milk ") fresh_page)) ≠ [])
    as Hne by by vm_compute.
  split_and!; [exact Hf|exact Hne|].
  exact (proj2 (@addItem_keeps_markup_free_text unlimited_storage _ Hf Hne)).
Defined.

Lemma snapshot_round_trip_plain_witness :
  plain_state fresh_page = true
  ∧ types_markup_free shopping = true
  ∧ @save_accepted unlimited_storage (demo_run shopping fresh_page) = true
  ∧ the_list [] = []
  ∧ the_list
      (list_kids
         (@bootstrap model_parser []
            (localStorage (demo_save (demo_run shopping fresh_page)))))
    = [mkItem (lit "Buy milk") true; mkItem (lit "Walk dog") false].
Proof.
  assert (plain_state fresh_page = true) as Hst by reflexivity.
  assert (types_markup_free shopping = true) as Hevs by reflexivity.
  assert (@save_accepted unlimited_storage (demo_run shopping fresh_page) = true)
    as Hacc by reflexivity.
  assert (the_list [] = []) as Hp by reflexivity.
  split_and!; [exact Hst|exact Hevs|exact Hacc|exact Hp|].
  rewrite (proj1 (@snapshot_round_trip_plain unlimited_storage fresh_page shopping
                    [] Hst Hevs Hacc Hp)).
  vm_compute. reflexivity.
Defined.

Lemma plain_items_never_blank_witness :
  plain_state fresh_page = true
  ∧ types_markup_free shopping = true
  ∧ Forall (fun it => trim (text it) ≠ [])
      (the_list (list_kids (demo_run shopping fresh_page))).
Proof.
  assert (plain_state fresh_page = true) as Hst by reflexivity.
  assert (types_markup_free shopping = true) as Hevs by reflexivity.
  split_and!; [exact Hst|exact Hevs|].
  exact (proj1 (@plain_items_never_blank unlimited_storage fresh_page shopping
                  Hst Hevs)).
Defined.

(** * Further properties of script.js *)

(** ** Runs *)

Lemma run_app `{HtmlParser} `{WebStorage} (evs1 evs2 : list event) (st : state) :
  run (evs1 ++ evs2) st = run evs2 (run evs1 st).
Proof. apply fold_left_app. Qed.

Lemma on_keypress_enter `{HtmlParser} `{WebStorage} (st : state) :
  on_keypress (lit "Enter") st = addItem st.
Proof. reflexivity. Qed.

Lemma storage_reads_app (l1 l2 : list effect) :
  storage_reads (l1 ++ l2) = (storage_reads l1 + storage_reads l2)%nat.
Proof. unfold storage_reads. by rewrite List.filter_app, length_app. Qed.

Lemma alerts_app (l1 l2 : list effect) :
  alerts (l1 ++ l2) = (alerts l1 + alerts l2)%nat.
Proof. unfold alerts. by rewrite List.filter_app, length_app. Qed.

Lemma remove_parent_store (p : path) (st : state) :
  localStorage (remove_parent p st) = localStorage st.
Proof. unfold remove_parent. by destruct (removelast p). Qed.

Lemma remove_parent_input (p : path) (st : state) :
  input_value (remove_parent p st) = input_value st.
Proof. unfold remove_parent. by destruct (removelast p). Qed.

(** What a click leaves alone, whatever its target. *)
Lemma on_click_frame `{WebStorage} (p : path) (st : state) :
  input_value (on_click p st) = input_value st
  ∧ alerts (effects (on_click p st)) = alerts (effects st)
  ∧ storage_reads (effects (on_click p st)) = storage_reads (effects st)
  ∧ (∀ k, k ≠ lit "data" → localStorage (on_click p st) !! k = localStorage st !! k).
Proof.
  unfold on_click. destruct (target_tagName st p) as [tag|]; [|done].
  destruct (strict_eq tag (lit "LI")).
  { rewrite saveData_input, saveData_alerts, saveData_reads.
    split_and!; [done..|]. intros k Hk. by rewrite saveData_other_keys. }
  destruct (strict_eq tag (lit "SPAN")); [|done].
  rewrite saveData_input, saveData_alerts, saveData_reads.
  rewrite remove_parent_effects, remove_parent_input.
  split_and!; [done..|]. intros k Hk.
  by rewrite saveData_other_keys, remove_parent_store.
Qed.

(** What a key press leaves alone. *)
Lemma on_keypress_frame `{HtmlParser} `{WebStorage} (key : jsstring) (st : state) :
  storage_reads (effects (on_keypress key st)) = storage_reads (effects st)
  ∧ list_in_document (on_keypress key st) = list_in_document st
  ∧ (∀ k, k ≠ lit "data" → localStorage (on_keypress key st) !! k = localStorage st !! k).
Proof.
  unfold on_keypress. destruct (strict_eq key (lit "Enter")); [|done].
  destruct (decide (trim (input_value st) = [])) as [Hb|Hb].
  - rewrite addItem_blank by done. simpl.
    split_and!; [count_effects|done..].
  - rewrite addItem_not_blank by done.
    rewrite saveData_reads, saveData_in_document.
    split_and!; [done..|]. intros k Hk. by rewrite saveData_other_keys.
Qed.

(** ** The keypress listener *)

(** X1. Editing the input and pressing keys other than Enter, in any order
    and number, changes nothing but the input's value: the container, the
    store and the log of effects stay, and the list stays in the page. *)
Theorem quiet_keys_change_only_the_input `{HtmlParser} `{WebStorage}
    (evs : list event) (st : state) :
  forallb quiet_event evs = true →
  list_kids (run evs st) = list_kids st
  ∧ list_in_document (run evs st) = list_in_document st
  ∧ localStorage (run evs st) = localStorage st
  ∧ effects (run evs st) = effects st
  ∧ input_value (run evs st) = last_typed evs (input_value st).
Proof.
  revert st. induction evs as [|ev evs IH]; intros st; [done|].
  simpl forallb. intros [Hev Hevs]%andb_prop.
  rewrite run_cons. unfold last_typed. simpl fold_left.
  destruct (IH (handle ev st) Hevs) as (-> & -> & -> & -> & ->).
  destruct ev as [v|key|p]; simpl in *; [done| |done].
  unfold on_keypress. apply negb_true_iff in Hev. by rewrite Hev.
Qed.

(** X2. Pressing Enter twice on a text that is not blank adds one item,
    not two: the first press clears the input, so the second press finds
    it blank and alerts. *)
Theorem second_enter_is_rejected `{HtmlParser} `{WebStorage} (st : state) :
  trim (input_value st) ≠ [] →
  on_keypress (lit "Enter") (on_keypress (lit "Enter") st)
  = alert (lit "You must write something!") (addItem st)
  ∧ list_kids (on_keypress (lit "Enter") (on_keypress (lit "Enter") st))
    = list_kids st ++ [new_li (input_value st)]
  ∧ storage_writes (effects (on_keypress (lit "Enter") (on_keypress (lit "Enter") st)))
    = S (storage_writes (effects st))
  ∧ alerts (effects (on_keypress (lit "Enter") (on_keypress (lit "Enter") st)))
    = S (alerts (effects st)).
Proof.
  intros Hne. rewrite !on_keypress_enter.
  assert (addItem (addItem st) = alert (lit "You must write something!") (addItem st))
    as ->.
  { apply addItem_blank. rewrite addItem_not_blank by done.
    by rewrite saveData_input. }
  rewrite addItem_not_blank by done. split_and!; [done|..]; simpl.
  - by rewrite saveData_kids.
  - rewrite storage_writes_app, saveData_writes. simpl. count_effects.
  - rewrite alerts_app, saveData_alerts. simpl. count_effects.
Qed.

(** X3. Texts submitted one after the other, each not blank, become the
    last children of the container in the order of submission, one
    unchecked item each; equal texts give separate items.  Each
    submission writes the store once, and the input ends empty. *)
Theorem submissions_append_in_order `{HtmlParser} `{WebStorage}
    (vs : list jsstring) (st : state) :
  Forall (fun v => trim v ≠ []) vs →
  list_kids (run (submit_all vs) st) = list_kids st ++ List.map new_li vs
  ∧ the_list (list_kids (run (submit_all vs) st))
    = the_list (list_kids st) ++ List.map (fun v => mkItem (entry_text v) false) vs
  ∧ storage_writes (effects (run (submit_all vs) st))
    = (storage_writes (effects st) + length vs)%nat
  ∧ (vs ≠ [] → input_value (run (submit_all vs) st) = []).
Proof.
  intros Hvs. revert st. induction Hvs as [|v vs Hv Hvs IH]; intros st.
  - simpl. rewrite !app_nil_r. split_and!; [done|done|lia|done].
  - change (submit_all (v :: vs)) with (submit v ++ submit_all vs).
    rewrite run_app.
    assert (run (submit v) st
            = saveData (set_input_value []
                (set_list_kids (list_kids st ++ [new_li v]) st))) as Hrun.
    { unfold run, submit. simpl fold_left. rewrite on_keypress_enter.
      by rewrite addItem_not_blank. }
    destruct (IH (run (submit v) st)) as (Hk & Hl & Hw & Hi).
    rewrite Hl, Hw, Hk, Hrun. rewrite saveData_kids, saveData_writes.
    cbn [list_kids effects set_input_value set_list_kids].
    rewrite (the_list_snoc _ _ _ (item_of_new_li v)).
    rewrite <- !app_assoc.
    split_and!; [done|done|simpl length; lia|].
    intros _. rewrite Hrun in Hi. destruct vs as [|v' vs']; [|by apply Hi].
    unfold submit_all, run. cbn [List.map List.concat fold_left].
    by rewrite saveData_input.
Qed.

(** X4. Adding an item and then clicking its delete button gives back the
    container as it was before the add, child for child.  The delete ends
    with a write of that container's markup: when the store accepts it,
    the store holds the markup of the container of before the add; when
    the store refuses it, the store stays as the add left it. *)
Theorem add_then_delete_restores `{HtmlParser} `{WebStorage} (st : state) :
  trim (input_value st) ≠ [] →
  list_kids
    (on_click [length (list_kids st);
               length (parse_fragment (lit "li") (input_value st))]
       (addItem st))
  = list_kids st
  ∧ (storage_accepts (localStorage (addItem st)) (lit "data")
       (innerHTML list_container_name (list_kids st)) = true →
     localStorage
       (on_click [length (list_kids st);
                  length (parse_fragment (lit "li") (input_value st))]
          (addItem st)) !! lit "data"
     = Some (innerHTML list_container_name (list_kids st)))
  ∧ (storage_accepts (localStorage (addItem st)) (lit "data")
       (innerHTML list_container_name (list_kids st)) = false →
     localStorage
       (on_click [length (list_kids st);
                  length (parse_fragment (lit "li") (input_value st))]
          (addItem st))
     = localStorage (addItem st)).
Proof.
  intros Hne. rewrite addItem_not_blank by done.
  remember (saveData _) as st1 eqn:Est1.
  assert (list_kids st1 !! length (list_kids st)
          = Some (Element (lit "li") []
                    (parse_fragment (lit "li") (input_value st) ++ [close_button])))
    as Hi.
  { rewrite Est1, saveData_kids. simpl list_kids.
    rewrite lookup_app_r by lia. by rewrite Nat.sub_diag. }
  assert ((parse_fragment (lit "li") (input_value st) ++ [close_button])
            !! length (parse_fragment (lit "li") (input_value st))
          = Some (Element (lit "span") (setAttribute (lit "class") (lit "close") [])
                    (parse_fragment (lit "span") [0xD7]))) as Hj.
  { rewrite lookup_app_r by lia. by rewrite Nat.sub_diag. }
  rewrite (on_click_span st1 _ _ _ _ _ _ _ _ Hi Hj eq_refl).
  assert (delete (length (list_kids st)) (list_kids st1) = list_kids st) as Hdel.
  { rewrite Est1, saveData_kids. simpl list_kids.
    rewrite delete_middle, take_app_length.
    rewrite (drop_middle_length _ _ _ _ eq_refl). apply app_nil_r. }
  rewrite saveData_kids, saveData_store. unfold save_accepted.
  cbn [list_kids set_list_kids localStorage]. rewrite Hdel.
  split; [done|]. split; intros ->; [|done]. apply lookup_insert_eq.
Qed.

(** ** The store *)



(** X6. Along any run the alerts shown are as many as the presses of Enter
    on a blank input: no click and no edit of the input ever alerts.  A
    press of Enter is either rejected or a successful add, never both and
    never neither. *)
Theorem alerts_are_rejected_submissions `{HtmlParser} `{WebStorage}
    (evs : list event) (st : state) :
  alerts (effects (run evs st)) = (alerts (effects st) + rejections evs st)%nat
  ∧ rejected (KeyPress (lit "Enter")) st = negb (mutates (KeyPress (lit "Enter")) st).
Proof.
  split; [|simpl; by destruct (strict_eq (trim (input_value st)) [])].
  revert st. induction evs as [|ev evs IH]; intros st; simpl rejections.
  - simpl. lia.
  - rewrite run_cons, IH.
    assert (alerts (effects (handle ev st))
            = (alerts (effects st) + if rejected ev st then 1 else 0)%nat) as ->;
      [|lia].
    destruct ev as [v|key|p]; simpl.
    + lia.
    + unfold on_keypress. destruct (strict_eq key (lit "Enter")); simpl; [|lia].
      destruct (strict_eq (trim (input_value st)) []) eqn:E.
      * apply strict_eq_true in E. rewrite addItem_blank by done. simpl.
        count_effects.
      * apply strict_eq_false in E. rewrite addItem_not_blank by done.
        rewrite saveData_effects. simpl. count_effects.
    + destruct (on_click_frame p st) as (_ & -> & _). lia.
Qed.

(** ** The click listener, at any depth *)

Lemma node_at_cons (ks : list node) (i : nat) (q : path) (n : node) :
  node_at ks (i :: q) = Some n →
  ∃ x, ks !! i = Some x
       ∧ match q with [] => x = n | _ => node_at (kids_of x) q = Some n end.
Proof.
  simpl. destruct (ks !! i) as [x|]; [|done]. intros Hn. exists x. split; [done|].
  destruct q; [by injection Hn|done].
Qed.

Lemma node_at_inside (x : node) (q : path) (n : node) :
  q ≠ [] → node_at (kids_of x) q = Some n →
  ∃ a b c, x = Element a b c ∧ node_at c q = Some n.
Proof.
  intros Hq Hn. destruct x as [d|d|a b c]; simpl in Hn.
  - by rewrite node_at_nil in Hn.
  - by rewrite node_at_nil in Hn.
  - by exists a, b, c.
Qed.

Lemma length_alter_at (f : node → node) (ks : list node) (p : path) :
  length (alter_at f ks p) = length ks.
Proof. destruct p as [|i [|j q]]; simpl; [done|..]; apply length_alter. Qed.

Lemma lookup_alter_at_ne (f : node → node) (ks : list node) (i j : nat) (q : path) :
  i ≠ j → alter_at f ks (i :: q) !! j = ks !! j.
Proof. intros Hij. destruct q; simpl; by apply list_lookup_alter_ne. Qed.

(** Altering at a path alters the node the path leads to. *)
Lemma node_at_alter_at (f : node → node) (p : path) (ks : list node) (n : node) :
  node_at ks p = Some n → node_at (alter_at f ks p) p = Some (f n).
Proof.
  revert ks. induction p as [|i q IH]; intros ks Hn; [done|].
  apply node_at_cons in Hn as (x & Hi & Hq).
  destruct q as [|j q].
  - subst x. simpl. by rewrite list_lookup_alter_eq, Hi.
  - apply node_at_inside in Hq as (a & b & c & -> & Hc); [|done].
    cbn [alter_at node_at]. rewrite list_lookup_alter_eq, Hi. simpl.
    by apply IH.
Qed.

Lemma target_tagName_element (st : state) (p : path) name attrs ks :
  node_at (list_kids st) p = Some (Element name attrs ks) →
  target_tagName st p = Some (tagName name).
Proof.
  intros Hn. destruct p as [|i q]; [done|]. unfold target_tagName. by rewrite Hn.
Qed.

Lemma on_click_li_at `{WebStorage} (st : state) (p : path) name attrs ks :
  node_at (list_kids st) p = Some (Element name attrs ks) →
  tagName name = lit "LI" →
  on_click p st
  = saveData
      (set_list_kids (alter_at (toggle_class (lit "checked")) (list_kids st) p) st).
Proof.
  intros Hn Hli. unfold on_click.
  rewrite (target_tagName_element _ _ _ _ _ Hn), Hli. reflexivity.
Qed.

Lemma on_click_span_at `{WebStorage} (st : state) (p : path) name attrs ks :
  node_at (list_kids st) p = Some (Element name attrs ks) →
  tagName name = lit "SPAN" →
  on_click p st = saveData (remove_parent p st).
Proof.
  intros Hn Hs. unfold on_click.
  rewrite (target_tagName_element _ _ _ _ _ Hn), Hs. reflexivity.
Qed.

(** Altering at a path leaves every node off the path as it is, the
    nodes below the altered one included when [f] keeps the children. *)
Lemma node_at_alter_at_other (f : node → node) (p p' : path) (ks : list node) :
  (∀ n, kids_of (f n) = kids_of n) →
  ¬ p' `prefix_of` p →
  node_at (alter_at f ks p) p' = node_at ks p'.
Proof.
  intros Hf. revert ks p'. induction p as [|i q IH]; intros ks p' Hp; [done|].
  destruct p' as [|j r]; [by destruct Hp; apply prefix_nil|].
  destruct (decide (j = i)) as [->|Hji].
  - assert (r ≠ [] → ¬ r `prefix_of` q) as Hr.
    { intros _ Hrq. apply Hp. by apply prefix_cons. }
    destruct q as [|j' q'].
    + cbn [alter_at node_at]. rewrite list_lookup_alter_eq.
      destruct (ks !! i) as [x|]; [|done]. cbn [fmap option_fmap option_map].
      destruct r as [|k r]; [by destruct Hp|]. by rewrite Hf.
    + cbn [alter_at]. cbn [node_at]. rewrite list_lookup_alter_eq.
      destruct (ks !! i) as [x|]; [|done]. cbn [fmap option_fmap option_map].
      destruct r as [|k r]; [by destruct Hp; apply prefix_cons, prefix_nil|].
      destruct x as [d|d|a b c]; [done|done|]. cbn [kids_of].
      apply IH, Hr. done.
  - cbn [node_at]. rewrite (lookup_alter_at_ne f ks i j q) by done. done.
Qed.

(** Altering at a path keeps the name and the attributes of every element
    the path runs through, and alters below it. *)
Lemma node_at_alter_at_ancestor (f : node → node) (p' r : path) (ks : list node)
    (a : jsstring) (b : attributes) (c : list node) :
  r ≠ [] →
  node_at ks p' = Some (Element a b c) →
  node_at (alter_at f ks (p' ++ r)) p' = Some (Element a b (alter_at f c r)).
Proof.
  intros Hr. revert ks. induction p' as [|i q IH]; intros ks Hn; [done|].
  apply node_at_cons in Hn as (x & Hi & Hq).
  assert (∀ t, alter_at f ks (i :: q ++ r) !! i
               = Some t →
               t = match x with
                   | Element a' b' c' => Element a' b' (alter_at f c' (q ++ r))
                   | _ => x
                   end) as Halt.
  { intros t. destruct (q ++ r) as [|k l] eqn:E.
    - destruct q; [by destruct r|done].
    - cbn [alter_at]. rewrite list_lookup_alter_eq, Hi. by intros [= <-]. }
  assert (is_Some (alter_at f ks (i :: q ++ r) !! i)) as [t Ht].
  { apply lookup_lt_is_Some. rewrite length_alter_at. by eapply lookup_lt_Some. }
  rewrite <- app_comm_cons. cbn [node_at]. rewrite Ht. rewrite (Halt _ Ht).
  destruct q as [|j q].
  - subst x. reflexivity.
  - apply node_at_inside in Hq as (a' & b' & c' & -> & Hc); [|done].
    cbn [kids_of]. by apply IH.
Qed.

Lemma kids_of_toggle_class (tok : jsstring) (n : node) :
  kids_of (toggle_class tok n) = kids_of n.
Proof. by destruct n. Qed.

Lemma node_at_one (ks : list node) (j : nat) : node_at ks [j] = ks !! j.
Proof. simpl. by destruct (ks !! j). Qed.

(** The node at the path, the nodes off the path, and the names,
    attributes and numbers of children of the elements on the path:
    together they determine the forest.  What satisfies them is the
    forest altered at the path, and nothing else. *)
Lemma alter_at_determined (f : node → node) (p : path) (ks ks' : list node)
    (n : node) :
  node_at ks p = Some n →
  node_at ks' p = Some (f n) →
  (∀ p', ¬ p' `prefix_of` p → node_at ks' p' = node_at ks p') →
  (∀ p' r a b c,
     p = p' ++ r → r ≠ [] → node_at ks p' = Some (Element a b c) →
     ∃ c', node_at ks' p' = Some (Element a b c') ∧ length c' = length c) →
  ks' = alter_at f ks p.
Proof.
  revert ks ks'. induction p as [|i q IH]; intros ks ks' Hn Hn' Hoff Hanc;
    [done|].
  apply node_at_cons in Hn as (x & Hi & Hq).
  apply list_eq. intros j. destruct (decide (j = i)) as [->|Hji].
  - destruct q as [|j' q'].
    + subst x. rewrite node_at_one in Hn'. rewrite Hn'. cbn [alter_at].
      by rewrite list_lookup_alter_eq, Hi.
    + apply node_at_inside in Hq as (a & b & c & -> & Hc); [|done].
      destruct (Hanc [i] (j' :: q') a b c eq_refl) as (c' & Hi' & Hlc); [done|..].
      { by rewrite node_at_one. }
      rewrite node_at_one in Hi'. rewrite Hi'. cbn [alter_at].
      rewrite list_lookup_alter_eq, Hi. cbn [fmap option_fmap option_map].
      do 2 f_equal. apply IH; [done|..].
      * cbn [node_at] in Hn'. by rewrite Hi' in Hn'.
      * intros p' Hp'. destruct p' as [|k r]; [reflexivity|].
        specialize (Hoff (i :: k :: r)). cbn [node_at] in Hoff.
        rewrite Hi, Hi' in Hoff. apply Hoff.
        intros Hpre. apply Hp'. by apply prefix_cons_inv_2 in Hpre.
      * intros p' r a' b' c0 Hpr Hr Hp'.
        destruct p' as [|k l]; [discriminate Hp'|].
        specialize (Hanc (i :: k :: l) r a' b' c0). cbn [node_at] in Hanc.
        rewrite Hi, Hi' in Hanc. apply Hanc; [by rewrite Hpr|done|done].
  - rewrite lookup_alter_at_ne by done. rewrite <- !node_at_one.
    apply Hoff. intros [k Hk]. injection Hk as Hij _. by destruct Hji.
Qed.

(** X7. A click on an [li] at any depth under the container, a nested one
    included, toggles the [checked] class of that element and touches no
    other node of the container: the element keeps its name and its
    children; every element the path to it runs through keeps its name,
    its attributes and the number of its children; every node off that
    path, the siblings of the element, the siblings of the elements above
    it and the nodes below it, is the node it was; the container keeps its
    length.  These leave no node of the container free
    ([alter_at_determined]).  The input field and the place of the list in
    the page stay.  A second click on the element brings its flag back. *)
Theorem toggle_at_any_depth `{WebStorage} (st : state) (i : nat) (q : path)
    (name : jsstring) (attrs : attributes) (ks : list node) :
  node_at (list_kids st) (i :: q) = Some (Element name attrs ks) →
  tagName name = lit "LI" →
  node_at (list_kids (on_click (i :: q) st)) (i :: q)
  = Some (Element name (classList_toggle (lit "checked") attrs) ks)
  ∧ length (list_kids (on_click (i :: q) st)) = length (list_kids st)
  ∧ (∀ j, j ≠ i → list_kids (on_click (i :: q) st) !! j = list_kids st !! j)
  ∧ (∀ p', ¬ p' `prefix_of` (i :: q) →
       node_at (list_kids (on_click (i :: q) st)) p' = node_at (list_kids st) p')
  ∧ (∀ p' r a b c,
       i :: q = p' ++ r → r ≠ [] →
       node_at (list_kids st) p' = Some (Element a b c) →
       ∃ c', node_at (list_kids (on_click (i :: q) st)) p' = Some (Element a b c')
             ∧ length c' = length c)
  ∧ input_value (on_click (i :: q) st) = input_value st
  ∧ list_in_document (on_click (i :: q) st) = list_in_document st
  ∧ ∃ attrs2,
      node_at (list_kids (on_click (i :: q) (on_click (i :: q) st))) (i :: q)
      = Some (Element name attrs2 ks)
      ∧ classList_contains (lit "checked") attrs2
        = classList_contains (lit "checked") attrs.
Proof.
  intros Hn Hli.
  pose proof (node_at_alter_at (toggle_class (lit "checked")) _ _ _ Hn) as Hn1.
  rewrite (on_click_li_at st _ _ _ _ Hn Hli).
  remember (saveData _) as st1 eqn:Est1.
  assert (list_kids st1
          = alter_at (toggle_class (lit "checked")) (list_kids st) (i :: q)) as Hk.
  { by rewrite Est1, saveData_kids. }
  assert (node_at (list_kids st1) (i :: q)
          = Some (Element name (classList_toggle (lit "checked") attrs) ks)) as Hn1'.
  { rewrite Hk. exact Hn1. }
  split_and!.
  - exact Hn1'.
  - rewrite Hk. apply length_alter_at.
  - intros j Hj. rewrite Hk. by apply lookup_alter_at_ne.
  - intros p' Hp. rewrite Hk.
    apply node_at_alter_at_other; [apply kids_of_toggle_class|done].
  - intros p' r a b c Hpr Hr Hp. rewrite Hk, Hpr.
    rewrite (node_at_alter_at_ancestor _ _ _ _ _ _ _ Hr Hp).
    eexists. split; [done|]. apply length_alter_at.
  - by rewrite Est1, saveData_input.
  - by rewrite Est1, saveData_in_document.
  - eexists. split.
    + rewrite (on_click_li_at st1 _ _ _ _ Hn1' Hli), saveData_kids.
      exact (node_at_alter_at (toggle_class (lit "checked")) _ _ _ Hn1').
    + rewrite !classList_toggle_flips by apply valid_token_checked.
      apply negb_involutive.
Qed.

(** *** A toggle below an item *)

Lemma textContent_toggle_class (tok : jsstring) (n : node) :
  textContent (toggle_class tok n) = textContent n.
Proof. by destruct n. Qed.

Lemma Forall2_middle {A} (R : A → A → Prop) (l : list A) (i : nat) (x y : A) :
  (∀ z, R z z) → l !! i = Some x → R y x →
  Forall2 R (take i l ++ y :: drop (S i) l) l.
Proof.
  intros Hrefl Hi Hyx. rewrite <- (take_drop_middle l i x Hi) at 3.
  apply Forall2_app; [by apply Forall_Forall2_diag, Forall_true|].
  constructor; [done|]. by apply Forall_Forall2_diag, Forall_true.
Qed.

Lemma same_text_concat (c' c : list node) :
  Forall2 (fun x y => textContent x = textContent y
                      ∧ is_close_button x = is_close_button y) c' c →
  List.concat (List.map textContent c') = List.concat (List.map textContent c).
Proof.
  induction 1 as [|x y l l' [Ht _] _ IH]; [done|]. simpl. by rewrite Ht, IH.
Qed.

(** Toggling the class of an [li] somewhere in a forest changes neither
    the text of a tree of the forest nor which trees are delete
    affordances. *)
Lemma alter_at_toggle_same_text (p : path) (c : list node) name attrs ks :
  node_at c p = Some (Element name attrs ks) →
  tagName name = lit "LI" →
  Forall2 (fun x y => textContent x = textContent y
                      ∧ is_close_button x = is_close_button y)
    (alter_at (toggle_class (lit "checked")) c p) c.
Proof.
  revert c. induction p as [|i q IH]; intros c Hn Hli; [done|].
  apply node_at_cons in Hn as (x & Hi & Hq).
  destruct q as [|j q].
  - subst x. cbn [alter_at]. rewrite (alter_middle _ _ _ _ Hi).
    eapply Forall2_middle; [done|exact Hi|].
    split; [done|]. simpl. rewrite Hli. reflexivity.
  - apply node_at_inside in Hq as (a & b & cc & -> & Hc); [|done].
    cbn [alter_at]. rewrite (alter_middle _ _ _ _ Hi).
    eapply Forall2_middle; [done|exact Hi|].
    split; [|done]. simpl. apply same_text_concat. by apply IH.
Qed.

Lemma same_text_filter (c' c : list node) :
  Forall2 (fun x y => textContent x = textContent y
                      ∧ is_close_button x = is_close_button y) c' c →
  List.concat (List.map textContent
                 (List.filter (fun k => negb (is_close_button k)) c'))
  = List.concat (List.map textContent
                   (List.filter (fun k => negb (is_close_button k)) c)).
Proof.
  induction 1 as [|x y l l' [Ht Hb] _ IH]; [done|]. simpl. rewrite Hb.
  destruct (is_close_button y); simpl; [done|]. by rewrite Ht, IH.
Qed.

(** X8. A click on an [li] nested inside an item (markup in an item's text
    can put one there) checks no item: the script toggles the class of the
    nested element and saves, and the list of items, texts and flags, is
    the one before the click. *)
Theorem nested_toggle_leaves_the_list `{WebStorage} (st : state) (i j : nat) (q : path)
    (name : jsstring) (attrs : attributes) (ks : list node) :
  node_at (list_kids st) (i :: j :: q) = Some (Element name attrs ks) →
  tagName name = lit "LI" →
  the_list (list_kids (on_click (i :: j :: q) st)) = the_list (list_kids st)
  ∧ storage_writes (effects (on_click (i :: j :: q) st))
    = S (storage_writes (effects st)).
Proof.
  intros Hn Hli. rewrite (on_click_li_at st _ _ _ _ Hn Hli).
  rewrite saveData_kids, saveData_effects. cbn [list_kids effects set_list_kids].
  split; [|count_effects].
  apply node_at_cons in Hn as (x & Hi & Hq).
  apply node_at_inside in Hq as (a & b & c & -> & Hc); [|done].
  cbn [alter_at]. rewrite (alter_middle _ _ _ _ Hi).
  rewrite <- (take_drop_middle _ _ _ Hi) at 3.
  unfold the_list. rewrite !omap_app. f_equal. cbn [omap list_omap]. f_equal.
  unfold item_of. destruct (strict_eq (tagName a) (lit "LI")); [|done].
  do 2 f_equal. apply same_text_filter.
  by apply (alter_at_toggle_same_text _ _ _ _ _ Hc).
Qed.

(** *** Delete clicks off the items' own buttons *)

Lemma remove_parent_child (j : nat) (st : state) :
  remove_parent [j] st = detach_list st.
Proof. reflexivity. Qed.

(** X9. A click on a [span] that is a child of the container itself, not
    of an [li], removes no item: the parent that the script removes is the
    container, which leaves the page with all its children, and the save
    that follows writes the markup of those children: the store holds it
    when the store accepts the write, and is the store of before when it
    refuses. *)
Theorem stray_delete_button_detaches_the_list `{WebStorage} (st : state) (j : nat)
    (sname : jsstring) (sattrs : attributes) (sks : list node) :
  list_kids st !! j = Some (Element sname sattrs sks) →
  tagName sname = lit "SPAN" →
  on_click [j] st = saveData (detach_list st)
  ∧ list_kids (on_click [j] st) = list_kids st
  ∧ list_in_document (on_click [j] st) = false
  ∧ input_value (on_click [j] st) = input_value st
  ∧ effects (on_click [j] st)
    = effects st
      ++ SetItem (lit "data") (innerHTML list_container_name (list_kids st))
         :: (if save_accepted st then []
             else [Uncaught (lit "QuotaExceededError")])
  ∧ (save_accepted st = true →
     localStorage (on_click [j] st)
     = <[lit "data" := innerHTML list_container_name (list_kids st)]>
         (localStorage st))
  ∧ (save_accepted st = false →
     localStorage (on_click [j] st) = localStorage st).
Proof.
  intros Hj Hs.
  assert (node_at (list_kids st) [j] = Some (Element sname sattrs sks)) as Hn.
  { simpl. by rewrite Hj. }
  rewrite (on_click_span_at st _ _ _ _ Hn Hs), remove_parent_child.
  rewrite saveData_kids, saveData_in_document, saveData_input, saveData_effects,
    saveData_store.
  assert (save_accepted (detach_list st) = save_accepted st) as -> by reflexivity.
  cbn [detach_list list_kids list_in_document input_value effects localStorage].
  split_and!; try reflexivity; by intros ->.
Qed.

Lemma the_list_alter_checked (g : node → node) (i : nat) (ks : list node) :
  (∀ n, checked <$> item_of (g n) = checked <$> item_of n) →
  List.map checked (the_list (alter g i ks)) = List.map checked (the_list ks).
Proof.
  intros Hg. revert i. induction ks as [|k ks IH]; intros [|i]; try done.
  - change (alter g 0%nat (k :: ks)) with (g k :: ks). unfold the_list.
    cbn [omap list_omap]. specialize (Hg k).
    destruct (item_of (g k)), (item_of k); simplify_eq/=; by try f_equal.
  - change (alter g (S i) (k :: ks)) with (k :: alter g i ks). unfold the_list in *.
    cbn [omap list_omap]. destruct (item_of k); simpl; by rewrite IH.
Qed.

(** X10. A click on a [span] deeper than an item's own children (inside
    an element of an item's content) removes that element, the parent of
    the [span], and no item: the container keeps all its children, the
    items keep their flags, and the list stays in the page. *)
Theorem deep_delete_removes_no_item `{WebStorage} (st : state) (i j k : nat) (q : path)
    (sname : jsstring) (sattrs : attributes) (sks : list node) :
  node_at (list_kids st) (i :: j :: k :: q) = Some (Element sname sattrs sks) →
  tagName sname = lit "SPAN" →
  list_kids (on_click (i :: j :: k :: q) st)
  = remove_at (list_kids st) (i :: j :: removelast (k :: q))
  ∧ length (list_kids (on_click (i :: j :: k :: q) st)) = length (list_kids st)
  ∧ List.map checked (the_list (list_kids (on_click (i :: j :: k :: q) st)))
    = List.map checked (the_list (list_kids st))
  ∧ list_in_document (on_click (i :: j :: k :: q) st) = list_in_document st.
Proof.
  intros Hn Hs. rewrite (on_click_span_at st _ _ _ _ Hn Hs).
  rewrite saveData_kids.
  assert (remove_parent (i :: j :: k :: q) st
          = set_list_kids
              (remove_at (list_kids st) (i :: j :: removelast (k :: q))) st) as ->
    by reflexivity.
  rewrite saveData_in_document.
  cbn [list_kids set_list_kids remove_at list_in_document].
  split_and!; [done| |..|done].
  - apply length_alter.
  - apply the_list_alter_checked. intros [d|d|a b c]; try done.
    simpl. by destruct (strict_eq (tagName a) (lit "LI")).
Qed.

(** The three things a click can do. *)
Lemma on_click_cases `{WebStorage} (p : path) (st : state) :
  on_click p st = st
  ∨ on_click p st
    = saveData
        (set_list_kids (alter_at (toggle_class (lit "checked")) (list_kids st) p) st)
  ∨ (p ≠ [] ∧ on_click p st = saveData (remove_parent p st)).
Proof.
  destruct p as [|i q]; [by left|].
  unfold on_click. destruct (target_tagName st (i :: q)) as [tag|]; [|by left].
  destruct (strict_eq tag (lit "LI")); [by right; left|].
  destruct (strict_eq tag (lit "SPAN")); [|by left]. by right; right.
Qed.

Lemma length_delete_bounds {A} (l : list A) (i : nat) :
  (length (delete i l) ≤ length l ∧ length l ≤ S (length (delete i l)))%nat.
Proof.
  destruct (l !! i) eqn:Hi.
  - rewrite length_delete by done. lia.
  - apply lookup_ge_None in Hi.
    rewrite delete_middle, drop_ge, app_nil_r, take_ge by lia. lia.
Qed.

(** X11. What no click does, whatever its target: it never changes the
    input, never alerts, never adds a child to the container and never
    removes more than one.  Only a click on a grandchild of the container
    can remove a child, and only a click on a child can take the container
    out of the page. *)
Theorem click_bounds `{WebStorage} (p : path) (st : state) :
  input_value (on_click p st) = input_value st
  ∧ alerts (effects (on_click p st)) = alerts (effects st)
  ∧ (length (list_kids (on_click p st)) ≤ length (list_kids st))%nat
  ∧ (length (list_kids st) ≤ S (length (list_kids (on_click p st))))%nat
  ∧ (length p ≠ 2%nat →
     length (list_kids (on_click p st)) = length (list_kids st))
  ∧ (length p ≠ 1%nat →
     list_in_document (on_click p st) = list_in_document st).
Proof.
  destruct (on_click_frame p st) as (Hin & Hal & _).
  split; [done|]. split; [done|].
  destruct (on_click_cases p st) as [->|[->|[Hp ->]]].
  - split_and!; try done; lia.
  - rewrite saveData_kids, saveData_in_document.
    cbn [list_kids set_list_kids list_in_document]. rewrite length_alter_at.
    split_and!; try done; lia.
  - rewrite saveData_kids, saveData_in_document.
    destruct p as [|i [|j [|k q]]]; [done|..].
    + rewrite remove_parent_child. simpl. split_and!; try done; lia.
    + assert (remove_parent [i; j] st
              = set_list_kids (delete i (list_kids st)) st) as -> by reflexivity.
      cbn [list_kids set_list_kids list_in_document].
      destruct (length_delete_bounds (list_kids st) i).
      split_and!; try done; simpl; lia.
    + assert (remove_parent (i :: j :: k :: q) st
              = set_list_kids
                  (remove_at (list_kids st) (i :: j :: removelast (k :: q))) st) as ->
        by reflexivity.
      cbn [list_kids set_list_kids remove_at list_in_document].
      rewrite length_alter. split_and!; try done; lia.
Qed.

(** ** The start with a snapshot *)

(** X12. When the store holds a snapshot that is not the empty string, the
    start replaces the children the page's markup gave the container by
    what the parser makes of the snapshot: the result does not depend on
    the page's own children.  Nothing is written, and calling [showList]
    again gives the same container. *)
Theorem bootstrap_with_snapshot `{HtmlParser} (page_kids : list node)
    (store : gmap jsstring jsstring) (data : jsstring) :
  store !! lit "data" = Some data →
  data ≠ [] →
  list_kids (bootstrap page_kids store) = parse_fragment list_container_name data
  ∧ storage_writes (effects (bootstrap page_kids store)) = 0%nat
  ∧ list_kids (showList (bootstrap page_kids store))
    = list_kids (bootstrap page_kids store)
  ∧ input_value (bootstrap page_kids store) = []
  ∧ list_in_document (bootstrap page_kids store) = true.
Proof.
  intros Hd Hne.
  assert (truthy (Some data) = true) as Ht by by destruct data.
  unfold bootstrap, showList, getItem, page_loaded. simpl.
  rewrite Hd, Ht. simpl. rewrite Hd, Ht. done.
Qed.

(** ** Sessions without markup *)

Lemma item_of_plain_some (n : node) :
  is_plain_item n = true → is_Some (item_of n).
Proof.
  intros (attrs & t & -> & _)%is_plain_item_shape. rewrite item_of_plain. by eexists.
Qed.

Lemma plain_list_length (ks : list node) :
  forallb is_plain_item ks = true → length (the_list ks) = length ks.
Proof.
  induction ks as [|k ks IH]; [done|]. simpl forallb.
  intros [Hk Hks]%andb_prop. unfold the_list in *. cbn [omap list_omap].
  destruct (item_of_plain_some k Hk) as [it ->]. simpl. by rewrite IH.
Qed.

Lemma handle_plain_in_document `{WebStorage} (ev : event) (st : state) :
  plain_state st = true →
  list_in_document (@handle model_parser _ ev st) = list_in_document st.
Proof.
  intros [Hks _]%plain_state_cases. destruct ev as [v|key|p]; simpl; [done|..].
  - by destruct (@on_keypress_frame model_parser _ key st) as (_ & ? & _).
  - by destruct (plain_click p st Hks)
      as [->|[(i & a & t & _ & _ & _ & _ & ->)|(i & ->)]];
      rewrite ?saveData_in_document.
Qed.

(** X13. In a session where the texts added are markup-free, started from
    a list of plain items (the empty list is one), every child of the
    container is an item, so the list is as long as the container, and no
    click takes the container out of the page. *)
Theorem markup_free_sessions_stay_in_page `{WebStorage} (st : state)
    (evs : list event) :
  plain_state st = true →
  types_markup_free evs = true →
  list_in_document (@run model_parser _ evs st) = list_in_document st
  ∧ length (the_list (list_kids (@run model_parser _ evs st)))
    = length (list_kids (@run model_parser _ evs st)).
Proof.
  intros Hst Hevs. split.
  - revert st Hst Hevs. induction evs as [|ev evs IH]; intros st Hst Hevs; [done|].
    simpl in Hevs. apply andb_prop in Hevs as [Hev Hevs].
    rewrite (@run_cons model_parser _). rewrite IH; [by apply handle_plain_in_document| |done].
    apply handle_plain; [done|]. simpl. by rewrite Hev.
  - apply plain_list_length.
    by pose proof (run_plain evs st Hst Hevs) as [Hks _]%plain_state_cases.
Qed.

(** ** The class attribute after two toggles *)

Lemma setAttribute_absent (k v : jsstring) (attrs : attributes) :
  getAttribute k attrs = None → setAttribute k v attrs = attrs ++ [(k, v)].
Proof.
  induction attrs as [|[k' v'] r IH]; simpl; [done|].
  destruct (strict_eq k' k); [done|]. intros Hr. by rewrite IH.
Qed.

Lemma setAttribute_last (k v v' : jsstring) (attrs : attributes) :
  getAttribute k attrs = None →
  setAttribute k v' (attrs ++ [(k, v)]) = attrs ++ [(k, v')].
Proof.
  induction attrs as [|[k1 v1] r IH]; simpl.
  - by rewrite strict_eq_refl.
  - destruct (strict_eq k1 k); [done|]. intros Hr. by rewrite IH.
Qed.

Lemma getAttribute_last (k v : jsstring) (attrs : attributes) :
  getAttribute k attrs = None → getAttribute k (attrs ++ [(k, v)]) = Some v.
Proof.
  induction attrs as [|[k1 v1] r IH]; simpl.
  - by rewrite strict_eq_refl.
  - destruct (strict_eq k1 k); [done|]. apply IH.
Qed.

Lemma toggle_twice_without_class (attrs : attributes) :
  getAttribute (lit "class") attrs = None →
  classList_toggle (lit "checked") (classList_toggle (lit "checked") attrs)
  = attrs ++ [(lit "class", [])].
Proof.
  intros Hnone.
  assert (classList_toggle (lit "checked") attrs
          = attrs ++ [(lit "class", lit "checked")]) as ->.
  { unfold classList_toggle, class_tokens. rewrite Hnone.
    by rewrite setAttribute_absent. }
  unfold classList_toggle, class_tokens.
  rewrite getAttribute_last by done. by rewrite setAttribute_last.
Qed.

(** X14. Two clicks on an item that has no class attribute, as [addItem]
    makes it, restore its flag but not the element: it ends with an empty
    class attribute, so the container differs from the one before the
    clicks by this attribute alone. *)
Theorem toggle_twice_leaves_empty_class `{WebStorage} (st : state) (i : nat)
    (name : jsstring) (attrs : attributes) (ks : list node) :
  list_kids st !! i = Some (Element name attrs ks) →
  tagName name = lit "LI" →
  getAttribute (lit "class") attrs = None →
  list_kids (on_click [i] (on_click [i] st))
  = <[i := Element name (attrs ++ [(lit "class", [])]) ks]> (list_kids st)
  ∧ list_kids (on_click [i] (on_click [i] st)) ≠ list_kids st.
Proof.
  intros Hi Hn Hnone.
  assert (i < length (list_kids st))%nat as Hlt by by eapply lookup_lt_Some.
  assert (length (take i (list_kids st)) = i) as Hlen by (rewrite length_take; lia).
  assert (list_kids (on_click [i] (on_click [i] st))
          = <[i := Element name (attrs ++ [(lit "class", [])]) ks]> (list_kids st))
    as Heq.
  { rewrite (on_click_li st i name attrs ks Hi Hn).
    set (a1 := classList_toggle (lit "checked") attrs).
    assert (list_kids
              (saveData
                 (set_list_kids
                    (take i (list_kids st) ++ Element name a1 ks
                     :: drop (S i) (list_kids st)) st)) !! i
            = Some (Element name a1 ks)) as Hi1.
    { rewrite saveData_kids. simpl list_kids.
      rewrite lookup_app_r by lia. by rewrite Hlen, Nat.sub_diag. }
    rewrite (on_click_li _ i name a1 ks Hi1 Hn).
    rewrite !saveData_kids. simpl list_kids.
    rewrite take_app_length' by done.
    rewrite (drop_middle_length _ _ _ _ Hlen).
    unfold a1. rewrite toggle_twice_without_class by done.
    by rewrite insert_take_drop. }
  split; [done|]. rewrite Heq. intros Hsame.
  apply (f_equal (fun l => l !! i)) in Hsame.
  rewrite list_lookup_insert_eq, Hi in Hsame by done.
  injection Hsame as Hattrs. apply (f_equal length) in Hattrs.
  rewrite length_app in Hattrs. simpl in Hattrs. lia.
Qed.

(** ** Worked examples of the further properties *)

Lemma quiet_keys_change_only_the_input_witness :
  forallb quiet_event
    [UserTypes (lit "mil"); KeyPress (lit "k"); UserTypes (lit "milk");
     KeyPress (lit "Tab")] = true
  ∧ input_value
      (demo_run
         [UserTypes (lit "mil"); KeyPress (lit "k"); UserTypes (lit "milk");
          KeyPress (lit "Tab")] fresh_page)
    = lit "milk"
  ∧ effects
      (demo_run
         [UserTypes (lit "mil"); KeyPress (lit "k"); UserTypes (lit "milk");
          KeyPress (lit "Tab")] fresh_page)
    = effects fresh_page.
Proof.
  assert (forallb quiet_event
            [UserTypes (lit "mil"); KeyPress (lit "k"); UserTypes (lit "milk");
             KeyPress (lit "Tab")] = true) as Hq by reflexivity.
  destruct (@quiet_keys_change_only_the_input model_parser unlimited_storage
              _ fresh_page Hq)
    as (_ & _ & _ & He & Hi).
  split_and!; [exact Hq|exact Hi|exact He].
Defined.

Lemma second_enter_is_rejected_witness :
  trim (input_value (set_input_value (lit "Buy milk") fresh_page)) ≠ []
  ∧ the_list
      (list_kids
         (demo_keypress (lit "Enter")
            (demo_keypress (lit "Enter")
               (set_input_value (lit "Buy milk") fresh_page))))
    = [mkItem (lit "Buy milk") false].
Proof.
  assert (trim (input_value (set_input_value (lit "Buy milk") fresh_page)) ≠ [])
    as Hne by by vm_compute.
  split; [exact Hne|].
  destruct (@second_enter_is_rejected model_parser unlimited_storage _ Hne) as (_ & -> & _).
  vm_compute. reflexivity.
Defined.

Lemma submissions_append_in_order_witness :
  Forall (fun v => trim v ≠ []) [lit "milk"; lit "milk"; lit "eggs"]
  ∧ the_list
      (list_kids
         (demo_run (submit_all [lit "milk"; lit "milk"; lit "eggs"])
            fresh_page))
    = [mkItem (lit "milk") false; mkItem (lit "milk") false;
       mkItem (lit "eggs") false].
Proof.
  assert (Forall (fun v => trim v ≠ []) [lit "milk"; lit "milk"; lit "eggs"])
    as Hvs by (repeat constructor; by vm_compute).
  split; [exact Hvs|].
  destruct (@submissions_append_in_order model_parser unlimited_storage
              _ fresh_page Hvs)
    as (_ & -> & _).
  vm_compute. reflexivity.
Defined.

Lemma add_then_delete_restores_witness :
  trim (input_value
          (set_input_value (lit "Task A")
             (demo_run (adds "Buy milk") fresh_page))) ≠ []
  ∧ list_kids
      (demo_click [1%nat; 1%nat]
         (demo_addItem
            (set_input_value (lit "Task A")
               (demo_run (adds "Buy milk") fresh_page))))
    = [Element (lit "li") [] [Text (lit "Buy milk"); plain_close_button]]
  ∧ localStorage
      (demo_click [1%nat; 1%nat]
         (demo_addItem
            (set_input_value (lit "Task A")
               (demo_run (adds "Buy milk") fresh_page)))) !! lit "data"
    = Some (lit "<li>Buy milk<span class=" ++ 0x22 :: lit "close" ++ 0x22
            :: 0x3E :: 0xD7 :: lit "</span></li>").
Proof.
  assert (trim (input_value
                  (set_input_value (lit "Task A")
                     (demo_run (adds "Buy milk") fresh_page))) ≠ [])
    as Hne by by vm_compute.
  split; [exact Hne|].
  destruct (@add_then_delete_restores model_parser unlimited_storage _ Hne)
    as (Hk & Hs & _).
  split.
  - etransitivity; [exact Hk|]. vm_compute. reflexivity.
  - etransitivity; [exact (Hs eq_refl)|]. vm_compute. reflexivity.
Defined.

Lemma toggle_at_any_depth_witness :
  node_at (list_kids (demo_run (adds "a<li>b") fresh_page)) [0%nat; 1%nat]
  = Some (Element (lit "li") [] [Text (lit "b")])
  ∧ tagName (lit "li") = lit "LI"
  ∧ node_at
      (list_kids
         (demo_click [0%nat; 1%nat] (demo_run (adds "a<li>b") fresh_page)))
      [0%nat; 1%nat]
    = Some (Element (lit "li") [(lit "class", lit "checked")] [Text (lit "b")])
  ∧ node_at
      (list_kids
         (demo_click [0%nat; 1%nat] (demo_run (adds "a<li>b") fresh_page)))
      [0%nat; 0%nat]
    = Some (Text (lit "a"))
  ∧ node_at
      (list_kids
         (demo_click [0%nat; 1%nat] (demo_run (adds "a<li>b") fresh_page)))
      [0%nat; 2%nat]
    = Some plain_close_button
  ∧ node_at
      (list_kids
         (demo_click [0%nat; 1%nat] (demo_run (adds "a<li>b") fresh_page)))
      [0%nat; 1%nat; 0%nat]
    = Some (Text (lit "b"))
  ∧ (∃ c', node_at
             (list_kids
                (demo_click [0%nat; 1%nat]
                   (demo_run (adds "a<li>b") fresh_page)))
             [0%nat]
           = Some (Element (lit "li") [] c')
           ∧ length c' = 3%nat)
  ∧ length
      (list_kids
         (demo_click [0%nat; 1%nat] (demo_run (adds "a<li>b") fresh_page)))
    = 1%nat.
Proof.
  assert (node_at (list_kids (demo_run (adds "a<li>b") fresh_page))
            [0%nat; 1%nat]
          = Some (Element (lit "li") [] [Text (lit "b")])) as Hn by reflexivity.
  assert (tagName (lit "li") = lit "LI") as Hli by reflexivity.
  split; [exact Hn|]. split; [exact Hli|].
  destruct (@toggle_at_any_depth unlimited_storage _ _ _ _ _ _ Hn Hli)
    as (Ht & Hlen & _ & Hoff & Hanc & _).
  split; [exact Ht|].
  split.
  { etransitivity; [apply (Hoff [0%nat; 0%nat])|reflexivity].
    intros [k Hk]. discriminate Hk. }
  split.
  { etransitivity; [apply (Hoff [0%nat; 2%nat])|reflexivity].
    intros [k Hk]. discriminate Hk. }
  split.
  { etransitivity; [apply (Hoff [0%nat; 1%nat; 0%nat])|reflexivity].
    intros [k Hk]. discriminate Hk. }
  split.
  { apply (Hanc [0%nat] [1%nat] (lit "li") []
             [Text (lit "a"); Element (lit "li") [] [Text (lit "b")];
              plain_close_button]); [reflexivity|discriminate|reflexivity]. }
  etransitivity; [exact Hlen|reflexivity].
Defined.

Lemma nested_toggle_leaves_the_list_witness :
  node_at (list_kids (demo_run (adds "a<li>b") fresh_page)) [0%nat; 1%nat]
  = Some (Element (lit "li") [] [Text (lit "b")])
  ∧ tagName (lit "li") = lit "LI"
  ∧ the_list
      (list_kids
         (demo_click [0%nat; 1%nat] (demo_run (adds "a<li>b") fresh_page)))
    = [mkItem (lit "ab") false].
Proof.
  assert (node_at (list_kids (demo_run (adds "a<li>b") fresh_page))
            [0%nat; 1%nat]
          = Some (Element (lit "li") [] [Text (lit "b")])) as Hn by reflexivity.
  assert (tagName (lit "li") = lit "LI") as Hli by reflexivity.
  split_and!; [exact Hn|exact Hli|].
  rewrite (proj1 (@nested_toggle_leaves_the_list unlimited_storage
                    _ _ _ _ _ _ _ Hn Hli)).
  vm_compute. reflexivity.
Defined.

(** The stray delete button of this example is the one that the reload of
    the text [a<li>b] leaves under the container. *)
Lemma stray_delete_button_detaches_the_list_witness :
  list_kids
    (@bootstrap model_parser []
       (localStorage (demo_run (adds "a<li>b") fresh_page))) !! 2%nat
  = Some plain_close_button
  ∧ tagName (lit "span") = lit "SPAN"
  ∧ list_in_document
      (demo_click [2%nat]
         (@bootstrap model_parser []
            (localStorage (demo_run (adds "a<li>b") fresh_page))))
    = false
  ∧ list_kids
      (demo_click [2%nat]
         (@bootstrap model_parser []
            (localStorage (demo_run (adds "a<li>b") fresh_page))))
    = [Element (lit "li") [] [Text (lit "a")];
       Element (lit "li") [] [Text (lit "b")];
       plain_close_button]
  ∧ localStorage
      (demo_click [2%nat]
         (@bootstrap model_parser []
            (localStorage (demo_run (adds "a<li>b") fresh_page)))) !! lit "data"
    = Some (lit "<li>a</li><li>b</li><span class=" ++ 0x22 :: lit "close"
            ++ 0x22 :: 0x3E :: 0xD7 :: lit "</span>").
Proof.
  assert (list_kids
            (@bootstrap model_parser []
               (localStorage (demo_run (adds "a<li>b") fresh_page))) !! 2%nat
          = Some plain_close_button) as Hj by by vm_compute.
  assert (tagName (lit "span") = lit "SPAN") as Hs by reflexivity.
  split; [exact Hj|]. split; [exact Hs|].
  destruct (@stray_delete_button_detaches_the_list unlimited_storage
              _ _ _ _ _ Hj Hs)
    as (_ & Hk & Hd & _ & _ & Hst & _).
  split; [exact Hd|]. split.
  - etransitivity; [exact Hk|]. vm_compute. reflexivity.
  - rewrite (Hst eq_refl). vm_compute. reflexivity.
Defined.

Lemma deep_delete_removes_no_item_witness :
  node_at
    (list_kids (demo_run (adds "<abbr><span>x</span></abbr>") fresh_page))
    [0%nat; 0%nat; 0%nat]
  = Some (Element (lit "span") [] [Text (lit "x")])
  ∧ tagName (lit "span") = lit "SPAN"
  ∧ list_kids
      (demo_click [0%nat; 0%nat; 0%nat]
         (demo_run (adds "<abbr><span>x</span></abbr>") fresh_page))
    = [Element (lit "li") [] [plain_close_button]].
Proof.
  assert (node_at
            (list_kids
               (demo_run (adds "<abbr><span>x</span></abbr>") fresh_page))
            [0%nat; 0%nat; 0%nat]
          = Some (Element (lit "span") [] [Text (lit "x")])) as Hn by reflexivity.
  assert (tagName (lit "span") = lit "SPAN") as Hs by reflexivity.
  split_and!; [exact Hn|exact Hs|].
  rewrite (proj1 (@deep_delete_removes_no_item unlimited_storage
                    _ _ _ _ _ _ _ _ Hn Hs)).
  vm_compute. reflexivity.
Defined.

Lemma bootstrap_with_snapshot_witness :
  ({[lit "data" := lit "<li>a</li>"]} : gmap jsstring jsstring) !! lit "data"
  = Some (lit "<li>a</li>")
  ∧ lit "<li>a</li>" ≠ []
  ∧ list_kids
      (@bootstrap model_parser [Element (lit "li") [] [Text (lit "static")]]
         {[lit "data" := lit "<li>a</li>"]})
    = [Element (lit "li") [] [Text (lit "a")]].
Proof.
  assert (({[lit "data" := lit "<li>a</li>"]} : gmap jsstring jsstring) !! lit "data"
          = Some (lit "<li>a</li>")) as Hd by by vm_compute.
  assert (lit "<li>a</li>" ≠ []) as Hne by by vm_compute.
  split_and!; [exact Hd|exact Hne|].
  rewrite (proj1 (@bootstrap_with_snapshot model_parser
                    [Element (lit "li") [] [Text (lit "static")]] _ _ Hd Hne)).
  vm_compute. reflexivity.
Defined.

Lemma markup_free_sessions_stay_in_page_witness :
  plain_state fresh_page = true
  ∧ types_markup_free shopping = true
  ∧ list_in_document (demo_run shopping fresh_page) = true.
Proof.
  assert (plain_state fresh_page = true) as Hst by reflexivity.
  assert (types_markup_free shopping = true) as Hevs by reflexivity.
  split_and!; [exact Hst|exact Hevs|].
  exact (proj1 (@markup_free_sessions_stay_in_page unlimited_storage
                  fresh_page shopping Hst Hevs)).
Defined.

Lemma toggle_twice_leaves_empty_class_witness :
  list_kids (demo_run (adds "Buy milk") fresh_page) !! 0%nat
  = Some (Element (lit "li") [] [Text (lit "Buy milk"); plain_close_button])
  ∧ tagName (lit "li") = lit "LI"
  ∧ getAttribute (lit "class") [] = None
  ∧ list_kids
      (demo_click [0%nat]
         (demo_click [0%nat] (demo_run (adds "Buy milk") fresh_page)))
    = [Element (lit "li") [(lit "class", [])]
         [Text (lit "Buy milk"); plain_close_button]].
Proof.
  assert (list_kids (demo_run (adds "Buy milk") fresh_page) !! 0%nat
          = Some (Element (lit "li") [] [Text (lit "Buy milk"); plain_close_button]))
    as Hi by reflexivity.
  assert (tagName (lit "li") = lit "LI") as Hn by reflexivity.
  assert (getAttribute (lit "class") [] = None) as Hc by reflexivity.
  split_and!; [exact Hi|exact Hn|exact Hc|].
  rewrite (proj1 (@toggle_twice_leaves_empty_class unlimited_storage
                    _ _ _ _ _ Hi Hn Hc)).
  vm_compute. reflexivity.
Defined.
